(** * Ocean-hazard tweet analyzer: keyword tagging, hazard categorisation,
      sentiment scoring and report aggregation.

    Shallow embedding of the classification core of
    [src/scraper/web_scraper.py] (the demo-data program, module [Demo]) and
    [src/scraper/web_scarper.py] (the live-scraping program, module [Live]).

    Modelling conventions.
    - A Python [str] is a [string]; a non-ASCII character is the sequence of
      its UTF-8 bytes.  [str.lower] and [str.strip] are modelled on the ASCII
      range ([lower], [strip] below); bytes above 127 are left unchanged.
    - A Python [float] is a rational number ([Q]); arithmetic is exact.
    - A [dict] used as a map is a [gmap]; where the insertion order matters
      (a [Counter] handed to [most_common]) it is an association list.
    - Code that can raise returns an [option]; [None] is the exception.
    - What the program takes from outside (the TextBlob estimator, the random
      generator, the clock, the scraper) is a section variable. *)

From Stdlib Require Import String Ascii List Bool ZArith QArith Qround Qabs Qminmax
  DecimalString Lia Lqa Field Qfield Sorted Permutation.
From stdpp Require Import base option list gmap strings.

Local Open Scope string_scope.
Local Open Scope list_scope.

(** ** Python strings *)

Module PyStr.

(** [c.lower()] for one character of the ASCII range. *)
Definition lower_ascii (c : ascii) : ascii :=
  let n := nat_of_ascii c in
  if (65 <=? n)%nat && (n <=? 90)%nat then ascii_of_nat (n + 32) else c.

(** [s.lower()]. *)
Fixpoint lower (s : string) : string :=
  match s with
  | EmptyString => EmptyString
  | String c s' => String (lower_ascii c) (lower s')
  end.

(** [c.isspace()] on the ASCII range: tab, line feed, vertical tab, form
    feed, carriage return, the four separators 28..31 and the space. *)
Definition is_space (c : ascii) : bool :=
  let n := nat_of_ascii c in
  ((9 <=? n)%nat && (n <=? 13)%nat) || ((28 <=? n)%nat && (n <=? 32)%nat).

(** [s.lstrip()]. *)
Fixpoint lstrip (s : string) : string :=
  match s with
  | EmptyString => EmptyString
  | String c s' => if is_space c then lstrip s' else s
  end.

(** [s.rstrip()]: a character is dropped when it is a space and everything
    after it has been dropped. *)
Fixpoint rstrip (s : string) : string :=
  match s with
  | EmptyString => EmptyString
  | String c s' =>
      match rstrip s' with
      | EmptyString => if is_space c then EmptyString else String c EmptyString
      | r => String c r
      end
  end.

(** [s.strip()]. *)
Definition strip (s : string) : string := rstrip (lstrip s).

(** [sub in s], Python's substring test: [sub] is a prefix of [s] or occurs
    further to the right. *)
Fixpoint str_in (sub s : string) : bool :=
  String.prefix sub s ||
  match s with
  | EmptyString => false
  | String _ s' => str_in sub s'
  end.

(** What the test decides: [s] splits as [pre ++ sub ++ post]. *)
Definition occurs_in (sub s : string) : Prop :=
  exists pre post : string, s = String.append pre (String.append sub post).

(** [x in xs] for a list of strings. *)
Definition list_in (x : string) (xs : list string) : bool :=
  existsb (String.eqb x) xs.

(** [any(p(x) for x in xs)]. *)
Definition any {A : Type} (p : A -> bool) (xs : list A) : bool := existsb p xs.

End PyStr.

Import PyStr.

(** ** The vocabulary (the same in both programs) *)

Definition KEYWORDS : list string :=
  [ "ocean hazard"; "tsunami"; "storm surge"; "hurricane"; "cyclone"; "typhoon";
    "flood"; "coastal erosion"; "sea level rise"; "marine pollution"; "oil spill";
    "red tide"; "whirlpool"; "rip current"; "underwater earthquake" ].

Definition EXTENDED_KEYWORDS : list string :=
  [ "climate change ocean"; "rising sea levels"; "ocean warming"; "coral bleaching";
    "marine heatwave"; "coastal flooding"; "beach erosion"; "storm damage";
    "ocean acidification"; "marine ecosystem" ].

(** [KEYWORDS + EXTENDED_KEYWORDS]. *)
Definition vocabulary : list string := KEYWORDS ++ EXTENDED_KEYWORDS.

(** [self.hazard_categories], in the insertion order of the dict literal. *)
Definition hazard_categories : list (string * list string) :=
  [ ("tsunami", ["tsunami"; "underwater earthquake"]);
    ("storms", ["hurricane"; "cyclone"; "typhoon"; "storm surge"; "storm damage"]);
    ("flooding", ["flood"; "coastal flooding"; "rising sea levels"]);
    ("erosion", ["coastal erosion"; "beach erosion"; "sea level rise"]);
    ("pollution", ["marine pollution"; "oil spill"; "red tide"; "ocean acidification"]);
    ("currents", ["rip current"; "whirlpool"]);
    ("climate", ["climate change ocean"; "ocean warming"; "coral bleaching"; "marine heatwave"]);
    ("general", ["ocean hazard"; "marine ecosystem"]) ].

(** [self.hazard_categories[category]]; [None] is a [KeyError]. *)
Fixpoint dict_get {V : Type} (d : list (string * V)) (k : string) : option V :=
  match d with
  | [] => None
  | (k', v) :: d' => if String.eqb k' k then Some v else dict_get d' k
  end.

(** ** Python numbers *)

Module PyNum.

Local Open Scope Q_scope.

(** [x < y] on floats. *)
Definition Qltb (x y : Q) : bool := negb (Qle_bool y x).

(** [int(x)]: truncation towards zero. *)
Definition py_int (x : Q) : Z :=
  if Qle_bool 0 x then Qfloor x else Qceiling x.

(** [x / n] for a length [n]; [None] is [ZeroDivisionError]. *)
Definition py_div (x : Q) (n : nat) : option Q :=
  match n with
  | O => None
  | S _ => Some (x / inject_Z (Z.of_nat n))
  end.

(** The integer nearest to [x], ties going to the even one. *)
Definition round_half_even (x : Q) : Z :=
  let f := Qfloor x in
  let r := x - inject_Z f in
  if Qltb r (1 # 2) then f
  else if Qltb (1 # 2) r then (f + 1)%Z
  else if Z.even f then f else (f + 1)%Z.

(** [round(x, ndigits)]. *)
Definition py_round (x : Q) (ndigits : nat) : Q :=
  let scale := (10 ^ Z.of_nat ndigits)%Z in
  inject_Z (round_half_even (x * inject_Z scale)) / inject_Z scale.

(** [sum(f(t) for t in ts)] over floats and over ints. *)
Definition sumQ {A : Type} (f : A -> Q) (ts : list A) : Q :=
  fold_left (fun acc t => acc + f t) ts 0.

Definition sumZ {A : Type} (f : A -> Z) (ts : list A) : Z :=
  fold_left (fun acc t => (acc + f t)%Z) ts 0%Z.

(** [sum(1 for w in ws if p(w))]. *)
Definition count_if {A : Type} (p : A -> bool) (ws : list A) : nat :=
  fold_left (fun acc w => if p w then S acc else acc) ws O.

(** [min(ts, key=key)] and [max(ts, key=key)]: the first item that attains
    the extremum; [None] is the [ValueError] on an empty sequence. *)
Fixpoint min_from {A : Type} (key : A -> Q) (best : A) (ts : list A) : A :=
  match ts with
  | [] => best
  | t :: ts' => min_from key (if Qltb (key t) (key best) then t else best) ts'
  end.

Definition py_min {A : Type} (key : A -> Q) (ts : list A) : option A :=
  match ts with
  | [] => None
  | t :: ts' => Some (min_from key t ts')
  end.

Fixpoint max_from {A : Type} (key : A -> Q) (best : A) (ts : list A) : A :=
  match ts with
  | [] => best
  | t :: ts' => max_from key (if Qltb (key best) (key t) then t else best) ts'
  end.

Definition py_max {A : Type} (key : A -> Q) (ts : list A) : option A :=
  match ts with
  | [] => None
  | t :: ts' => Some (max_from key t ts')
  end.

(** [f"{n:03d}"]. *)
Definition format_03d (n : nat) : string :=
  let digits := NilEmpty.string_of_uint (Nat.to_uint n) in
  let pad := (3 - String.length digits)%nat in
  String.append (string_of_list_ascii (repeat "0"%char pad)) digits.

End PyNum.

Import PyNum.

(** ** [collections.Counter] *)

Module PyCounter.

(** A counter keeps its keys in the order of their first insertion. *)
Fixpoint incr (k : string) (c : list (string * nat)) : list (string * nat) :=
  match c with
  | [] => [(k, 1%nat)]
  | (k', n) :: c' => if String.eqb k' k then (k', S n) :: c' else (k', n) :: incr k c'
  end.

(** [Counter(xs)]. *)
Definition Counter (xs : list string) : list (string * nat) :=
  fold_left (fun c x => incr x c) xs [].

(** Insertion into a list sorted by decreasing count; an entry goes after
    the entries with the same count, so the sort is stable. *)
Fixpoint insert_desc (e : string * nat) (sorted : list (string * nat)) : list (string * nat) :=
  match sorted with
  | [] => [e]
  | e' :: rest =>
      if (snd e' <? snd e)%nat then e :: sorted else e' :: insert_desc e rest
  end.

(** [sorted(c.items(), key=itemgetter(1), reverse=True)]. *)
Definition sort_desc (c : list (string * nat)) : list (string * nat) :=
  fold_left (fun sorted e => insert_desc e sorted) c [].

(** [c.most_common(n)]. *)
Definition most_common (n : nat) (c : list (string * nat)) : list (string * nat) :=
  firstn n (sort_desc c).

(** [set(xs)] as the list of distinct elements. *)
Fixpoint distinct (xs : list string) : list string :=
  match xs with
  | [] => []
  | x :: xs' => x :: List.filter (fun y => negb (String.eqb x y)) (distinct xs')
  end.

End PyCounter.

Import PyCounter.

(** ** Data shared by the two programs *)

(** A sentiment result: [(polarity, label, confidence)]. *)
Definition sentiment : Type := Q * string * Q.

(** One entry of a [demo_data] table. *)
Record DemoEntry := {
  data_content : string;
  data_username : string;
  data_handle : string;
  data_keywords : list string;
  data_category : string
}.

(** * The demo-data program, [web_scraper.py] *)

Module Demo.

Local Open Scope Q_scope.

Record OceanHazardTweet := {
  username : string;
  handle : string;
  content : string;
  timestamp : string;
  retweets : Z;
  likes : Z;
  replies : Z;
  tweet_id : string;
  matched_keywords : list string;
  sentiment_score : Q;
  sentiment_label : string;
  confidence : Q;
  hazard_category : string;
  source : string
}.

(** What one iteration of [get_demo_tweets] draws from [random] and from the
    clock: [random.randint(50, 300)], the three [random.uniform] values and
    [datetime.now().strftime(...)]. *)
Record DemoDraw := {
  base_engagement : Z;
  uniform_retweets : Q;
  uniform_likes : Q;
  uniform_replies : Q;
  now : string
}.

Definition disaster_negative : list string :=
  ["disaster"; "devastation"; "destroyed"; "catastrophic"; "emergency"; "urgent";
   "crisis"; "collapse"; "dying"; "death"; "evacuation"].

Definition disaster_positive : list string :=
  ["restored"; "recovery"; "saved"; "protection"; "resilient"; "amazing";
   "incredible"; "hope"; "success"; "working"].

(** The value returned by the [except] branch of [analyze_sentiment]. *)
Definition fallback_sentiment : sentiment := (- (2 # 10), "negative", 6 # 10).

Section Analyzer.

(** [TextBlob(text).sentiment.polarity]; [None] when it raises. *)
Variable polarity_of : string -> option Q.

(** The draws of the [i]-th iteration of [get_demo_tweets]. *)
Variable draws : nat -> DemoDraw.

(** The [try] block of [analyze_sentiment], from the estimator's polarity
    on. *)
Definition score_polarity (text : string) (polarity : Q) : sentiment :=
  let negative_boost := count_if (fun word => str_in word (lower text)) disaster_negative in
  let positive_boost := count_if (fun word => str_in word (lower text)) disaster_positive in
  let polarity :=
    polarity + (inject_Z (Z.of_nat positive_boost) * (2 # 10)
                - inject_Z (Z.of_nat negative_boost) * (3 # 10)) in
  let polarity := Qmax (- (1)) (Qmin 1 polarity) in
  let label :=
    if Qltb (15 # 100) polarity then "positive"
    else if Qltb polarity (- (15 # 100)) then "negative"
    else "neutral" in
  let confidence := Qmin (Qabs polarity + (2 # 10)) 1 in
  (polarity, label, confidence).

(** [analyze_sentiment]: the result and [self.sentiment_cache] after the
    call. *)
Definition analyze_sentiment (text : string) (sentiment_cache : gmap string sentiment)
  : sentiment * gmap string sentiment :=
  let text_key := strip (lower text) in
  match sentiment_cache !! text_key with
  | Some cached => (cached, sentiment_cache)
  | None =>
      match polarity_of text with
      | Some polarity =>
          let result := score_polarity text polarity in
          (result, <[text_key := result]> sentiment_cache)
      | None => (fallback_sentiment, sentiment_cache)
      end
  end.

(** [find_matching_keywords]: the loop appends each keyword that occurs. *)
Definition find_matching_keywords (text : string) : list string :=
  let text_lower := lower text in
  let all_keywords := KEYWORDS ++ EXTENDED_KEYWORDS in
  fold_left
    (fun matching_keywords keyword =>
       if str_in (lower keyword) text_lower
       then matching_keywords ++ [keyword]
       else matching_keywords)
    all_keywords [].

Definition category_priority : list string :=
  ["tsunami"; "storms"; "flooding"; "pollution"; "erosion"; "currents"; "climate"; "general"].

(** The inner loop of [categorize_hazard] over one category's keywords. *)
Definition category_hit (keyword_lower category_keywords : list string) : bool :=
  existsb
    (fun cat_keyword => any (fun kw => str_in (lower cat_keyword) kw) keyword_lower)
    category_keywords.

(** The outer loop of [categorize_hazard]: the first category of [priority]
    with a hit, [Some None] when the loop ends without one; [None] is the
    [KeyError] of [self.hazard_categories[category]]. *)
Fixpoint scan_categories (keyword_lower priority : list string) : option (option string) :=
  match priority with
  | [] => Some None
  | category :: rest =>
      match dict_get hazard_categories category with
      | None => None
      | Some category_keywords =>
          if category_hit keyword_lower category_keywords
          then Some (Some category)
          else scan_categories keyword_lower rest
      end
  end.

(** [categorize_hazard]; [None] is an exception. *)
Definition categorize_hazard (keywords : list string) : option string :=
  let keyword_lower := map lower keywords in
  match scan_categories keyword_lower category_priority with
  | None => None
  | Some (Some category) => Some category
  | Some None => Some (match keywords with [] => "unknown" | _ :: _ => "general" end)
  end.

(** The [demo_data] table of [get_demo_tweets]. *)
Definition demo_data : list DemoEntry :=
  [
    {| data_content := "🚨 URGENT: 7.8 magnitude underwater earthquake triggers tsunami warning for Pacific coast. Evacuations underway, please stay safe everyone! #Tsunami #Emergency";
       data_username := "EmergencyAlert"; data_handle := "emergencyalert";
       data_keywords := ["tsunami"; "underwater earthquake"]; data_category := "tsunami" |};
    {| data_content := "Devastating tsunami aftermath: entire coastal villages wiped out. The destruction is beyond words. My heart goes out to all victims and their families. 💔";
       data_username := "NewsReporter"; data_handle := "newsreporter";
       data_keywords := ["tsunami"]; data_category := "tsunami" |};
    {| data_content := "Amazing how tsunami early warning systems saved thousands of lives today. Technology and preparedness make all the difference! 🙏";
       data_username := "DisasterExpert"; data_handle := "disasterexpert";
       data_keywords := ["tsunami"]; data_category := "tsunami" |};
    {| data_content := "Hurricane Category 5 approaching Florida coast with 180mph winds! This is going to be catastrophic. Storm surge could reach 20 feet. Evacuate NOW! 🌪️";
       data_username := "WeatherService"; data_handle := "weatherservice";
       data_keywords := ["hurricane"; "storm surge"]; data_category := "storms" |};
    {| data_content := "Typhoon Mawar absolutely destroyed our island. No power, no water, homes flattened. This is the worst natural disaster we've ever experienced. #Typhoon";
       data_username := "IslandResident"; data_handle := "islandresident";
       data_keywords := ["typhoon"]; data_category := "storms" |};
    {| data_content := "Incredible footage of cyclone from space! Nature's power is both terrifying and beautiful. Stay safe everyone in the affected areas! 🌀";
       data_username := "AstronautMike"; data_handle := "astronautmike";
       data_keywords := ["cyclone"]; data_category := "storms" |};
    {| data_content := "Storm damage cleanup begins after hurricane passed. Community coming together to help rebuild. Amazing to see human resilience! 💪";
       data_username := "CommunityHelper"; data_handle := "communityhelper";
       data_keywords := ["storm damage"; "hurricane"]; data_category := "storms" |};
    {| data_content := "Coastal flooding getting worse every year due to rising sea levels. My neighborhood floods now with every high tide. Climate change is real! 🌊";
       data_username := "CoastalResident"; data_handle := "coastalresident";
       data_keywords := ["coastal flooding"; "rising sea levels"]; data_category := "flooding" |};
    {| data_content := "Flash flood emergency! Water rising rapidly in coastal areas. If you're in evacuation zone GET OUT NOW! This is life threatening! ⚠️";
       data_username := "FloodWatch"; data_handle := "floodwatch";
       data_keywords := ["flood"]; data_category := "flooding" |};
    {| data_content := "New flood barriers working perfectly! Engineering solutions can protect communities from sea level rise. Great investment for the future! 🔧";
       data_username := "CivilEngineer"; data_handle := "civilengineer";
       data_keywords := ["flood"; "sea level rise"]; data_category := "flooding" |};
    {| data_content := "Our beach is disappearing! Coastal erosion has eaten away 50 feet of shoreline in just 5 years. Soon our house will be underwater 😢";
       data_username := "BeachOwner"; data_handle := "beachowner";
       data_keywords := ["coastal erosion"; "beach erosion"]; data_category := "erosion" |};
    {| data_content := "Sea level rise is accelerating. Scientists predict 3 feet rise by 2100. Coastal cities need to start planning NOW for managed retreat.";
       data_username := "ClimateScientist"; data_handle := "climatescientist";
       data_keywords := ["sea level rise"]; data_category := "erosion" |};
    {| data_content := "Beach nourishment project restored 2 miles of coastline! Sand dunes are growing back and protecting homes from erosion. Nature-based solutions work! 🏖️";
       data_username := "CoastalManager"; data_handle := "coastalmanager";
       data_keywords := ["beach erosion"; "coastal erosion"]; data_category := "erosion" |};
    {| data_content := "MASSIVE oil spill in Gulf of Mexico! Thousands of barrels leaked, marine life dying. This environmental disaster will take decades to recover from 😡";
       data_username := "EcoActivist"; data_handle := "ecoactivist";
       data_keywords := ["oil spill"; "marine pollution"]; data_category := "pollution" |};
    {| data_content := "Red tide bloom killing fish and sea turtles along the coast. The smell is unbearable. When will we stop polluting our oceans?? 🐢💔";
       data_username := "MarineBiologist"; data_handle := "marinebiologist";
       data_keywords := ["red tide"; "marine pollution"]; data_category := "pollution" |};
    {| data_content := "Ocean acidification is making shells dissolve. Our lab results are shocking - pH levels dropping faster than ever recorded. Marine life in crisis! 🦪";
       data_username := "OceanChemist"; data_handle := "oceanchemist";
       data_keywords := ["ocean acidification"]; data_category := "pollution" |};
    {| data_content := "Beach cleanup collected 50 tons of plastic waste today! Amazing volunteers making a difference. Every piece of trash removed helps marine life! 🐋♻️";
       data_username := "CleanOcean"; data_handle := "cleanocean";
       data_keywords := ["marine pollution"]; data_category := "pollution" |};
    {| data_content := "WARNING: Dangerous rip currents at all beaches today! 3 people already rescued. If caught in rip current, swim parallel to shore then back to beach! 🏊‍♂️";
       data_username := "LifeguardService"; data_handle := "lifeguardservice";
       data_keywords := ["rip current"]; data_category := "currents" |};
    {| data_content := "Whirlpool near the lighthouse swallowed a small boat! All passengers rescued safely. Nature's power is incredible and terrifying. Stay away from that area! 🌊";
       data_username := "CoastGuard"; data_handle := "coastguard";
       data_keywords := ["whirlpool"]; data_category := "currents" |};
    {| data_content := "Ocean warming is killing coral reefs worldwide. Water temperatures 5°F above normal causing mass coral bleaching. We're losing paradise forever 🐠💔";
       data_username := "CoralScientist"; data_handle := "coralscientist";
       data_keywords := ["ocean warming"; "coral bleaching"]; data_category := "climate" |};
    {| data_content := "Marine heatwave in Pacific Ocean breaking all records! Fish populations crashing, entire ecosystems collapsing. Climate change is accelerating! 🌡️";
       data_username := "FisheriesExpert"; data_handle := "fisheriesexpert";
       data_keywords := ["marine heatwave"; "climate change ocean"]; data_category := "climate" |};
    {| data_content := "Incredible news! Coral restoration project shows 90% survival rate. Resilient corals adapting to warmer water. Hope for our reefs! 🪸✨";
       data_username := "ReefRestoration"; data_handle := "reefrestoration";
       data_keywords := ["coral bleaching"; "ocean warming"]; data_category := "climate" |};
    {| data_content := "Ocean hazards increasing due to climate change. Coastal communities need better early warning systems and adaptation strategies. Science saves lives! 🔬";
       data_username := "NOAA_Official"; data_handle := "noaa_official";
       data_keywords := ["ocean hazard"]; data_category := "general" |};
    {| data_content := "Marine ecosystem collapse happening faster than predicted. Jellyfish taking over where fish used to thrive. The ocean food web is breaking down 😰";
       data_username := "EcosystemExpert"; data_handle := "ecosystemexpert";
       data_keywords := ["marine ecosystem"]; data_category := "general" |};
    {| data_content := "New research shows marine ecosystems are incredibly resilient when given a chance! Marine protected areas showing amazing recovery. Conservation works! 🐙";
       data_username := "MarineConservation"; data_handle := "marineconservation";
       data_keywords := ["marine ecosystem"]; data_category := "general" |}
  ].

(** The engagement multiplier chosen in [get_demo_tweets]. *)
Definition engagement_multiplier (sentiment_label content : string) : Q :=
  if String.eqb sentiment_label "negative"
     && any (fun word => str_in word (lower content))
            ["emergency"; "urgent"; "disaster"; "warning"]
  then 3
  else if String.eqb sentiment_label "positive" then 15 # 10
  else 1.

(** The tweet built by iteration [i] of [get_demo_tweets]. *)
Definition demo_tweet (i : nat) (data : DemoEntry) (s : sentiment) : OceanHazardTweet :=
  let '(sentiment_score, sentiment_label, confidence) := s in
  let base_engagement := inject_Z (base_engagement (draws i)) in
  let engagement_multiplier := engagement_multiplier sentiment_label (data_content data) in
  {| username := data_username data;
     handle := data_handle data;
     content := data_content data;
     timestamp := now (draws i);
     retweets := py_int (base_engagement * engagement_multiplier * uniform_retweets (draws i));
     likes := py_int (base_engagement * engagement_multiplier * uniform_likes (draws i));
     replies := py_int (base_engagement * engagement_multiplier * uniform_replies (draws i));
     tweet_id := String.append "demo_" (format_03d (i + 1));
     matched_keywords := data_keywords data;
     sentiment_score := sentiment_score;
     sentiment_label := sentiment_label;
     confidence := confidence;
     hazard_category := data_category data;
     source := "DEMO_DATA" |}.

(** The loop of [get_demo_tweets] from iteration [i] on. *)
Fixpoint demo_loop (i : nat) (entries : list DemoEntry)
    (tweets : list OceanHazardTweet) (sentiment_cache : gmap string sentiment)
  : list OceanHazardTweet * gmap string sentiment :=
  match entries with
  | [] => (tweets, sentiment_cache)
  | data :: rest =>
      let '(s, sentiment_cache) := analyze_sentiment (data_content data) sentiment_cache in
      demo_loop (S i) rest (tweets ++ [demo_tweet i data s]) sentiment_cache
  end.

(** [get_demo_tweets] and [search_ocean_hazards], which returns it. *)
Definition get_demo_tweets (sentiment_cache : gmap string sentiment)
  : list OceanHazardTweet * gmap string sentiment :=
  demo_loop 0 demo_data [] sentiment_cache.

Definition search_ocean_hazards := get_demo_tweets.

End Analyzer.

(** *** The report *)

(** An entry of [report["by_hazard_category"]]; the last three fields are
    its ["avg_engagement"] dict. *)
Record CategoryStats := {
  cat_total_tweets : nat;
  cat_sentiment_distribution : list (string * nat);
  cat_avg_sentiment_score : Q;
  cat_avg_likes : Q;
  cat_avg_retweets : Q;
  cat_avg_replies : Q
}.

(** The entries ["most_negative"] and ["most_positive"]. *)
Record NotableBySentiment := {
  ns_content : string;
  ns_score : Q;
  ns_category : string;
  ns_handle : string
}.

(** The entry ["most_engaging"]. *)
Record NotableByEngagement := {
  ne_content : string;
  ne_likes : Z;
  ne_retweets : Z;
  ne_category : string;
  ne_handle : string
}.

(** The full report: ["summary"] (with its ["total_engagement"]),
    ["by_hazard_category"], ["top_keywords"] and ["notable_tweets"]. *)
Record Report := {
  total_tweets : nat;
  sentiment_distribution : list (string * nat);
  avg_sentiment_score : Q;
  total_likes : Z;
  total_retweets : Z;
  total_replies : Z;
  by_hazard_category : gmap string CategoryStats;
  top_keywords : list (string * nat);
  most_negative : NotableBySentiment;
  most_positive : NotableBySentiment;
  most_engaging : NotableByEngagement
}.

(** What [generate_sentiment_report] returns: the dict [{"error": ...}] or
    the full report. *)
Inductive ReportResult :=
| NoData (error : string)
| FullReport (report : Report).

(** The body of the category loop for one [category]. *)
Definition category_stats (tweets : list OceanHazardTweet) (category : string)
  : option CategoryStats :=
  let cat_tweets := List.filter (fun t => String.eqb (hazard_category t) category) tweets in
  avg_score ← py_div (sumQ sentiment_score cat_tweets) (length cat_tweets);
  avg_likes ← py_div (inject_Z (sumZ likes cat_tweets)) (length cat_tweets);
  avg_retweets ← py_div (inject_Z (sumZ retweets cat_tweets)) (length cat_tweets);
  avg_replies ← py_div (inject_Z (sumZ replies cat_tweets)) (length cat_tweets);
  Some {| cat_total_tweets := length cat_tweets;
          cat_sentiment_distribution := Counter (map sentiment_label cat_tweets);
          cat_avg_sentiment_score := py_round avg_score 3;
          cat_avg_likes := py_round avg_likes 1;
          cat_avg_retweets := py_round avg_retweets 1;
          cat_avg_replies := py_round avg_replies 1 |}.

(** The category loop.  A Python set is iterated in an unspecified order;
    the loop is run here over the distinct categories in the order of their
    first tweet, and the dict it fills is a map, which forgets the order. *)
Fixpoint category_loop (tweets : list OceanHazardTweet) (todo : list string)
    (categories : gmap string CategoryStats) : option (gmap string CategoryStats) :=
  match todo with
  | [] => Some categories
  | category :: rest =>
      stats ← category_stats tweets category;
      category_loop tweets rest (<[category := stats]> categories)
  end.

Definition notable_by_sentiment (t : OceanHazardTweet) : NotableBySentiment :=
  {| ns_content := content t; ns_score := sentiment_score t;
     ns_category := hazard_category t; ns_handle := handle t |}.

Definition notable_by_engagement (t : OceanHazardTweet) : NotableByEngagement :=
  {| ne_content := content t; ne_likes := likes t; ne_retweets := retweets t;
     ne_category := hazard_category t; ne_handle := handle t |}.

(** [generate_sentiment_report]; [None] is an exception. *)
Definition generate_sentiment_report (tweets : list OceanHazardTweet) : option ReportResult :=
  match tweets with
  | [] => Some (NoData "No tweets to analyze")
  | _ :: _ =>
      let sentiment_counts := Counter (map sentiment_label tweets) in
      categories ← category_loop tweets (distinct (map hazard_category tweets)) ∅;
      let all_keywords := concat (map matched_keywords tweets) in
      let keyword_counts := Counter all_keywords in
      most_negative ← py_min sentiment_score tweets;
      most_positive ← py_max sentiment_score tweets;
      most_engaging ← py_max (fun t => inject_Z (likes t + retweets t)) tweets;
      avg ← py_div (sumQ sentiment_score tweets) (length tweets);
      Some (FullReport
        {| total_tweets := length tweets;
           sentiment_distribution := sentiment_counts;
           avg_sentiment_score := py_round avg 3;
           total_likes := sumZ likes tweets;
           total_retweets := sumZ retweets tweets;
           total_replies := sumZ replies tweets;
           by_hazard_category := categories;
           top_keywords := most_common 15 keyword_counts;
           most_negative := notable_by_sentiment most_negative;
           most_positive := notable_by_sentiment most_positive;
           most_engaging := notable_by_engagement most_engaging |})
  end.

End Demo.

(** * The live-scraping program, [web_scarper.py] *)

Module Live.

Local Open Scope Q_scope.

Record OceanHazardTweet := {
  username : string;
  handle : string;
  content : string;
  timestamp : string;
  retweets : Z;
  likes : Z;
  replies : Z;
  tweet_id : string;
  matched_keywords : list string;
  sentiment_score : Q;
  sentiment_label : string;
  confidence : Q;
  hazard_category : string;
  source : string;
  location : option string;
  verified : bool
}.

(** The dict that [TwitterScraper] hands over for one scraped tweet;
    ['verified'] is read with [.get], so it may be missing. *)
Record RawTweet := {
  raw_username : string;
  raw_handle : string;
  raw_content : string;
  raw_timestamp : string;
  raw_retweets : Z;
  raw_likes : Z;
  raw_replies : Z;
  raw_tweet_id : string;
  raw_verified : option bool;
  raw_source : string
}.

(** What one iteration of [get_fallback_tech_demo_tweets] draws: the clock,
    three [random.randint] values and [random.choice([True, False])]. *)
Record FallbackDraw := {
  now : string;
  rand_retweets : Z;
  rand_likes : Z;
  rand_replies : Z;
  rand_verified : bool
}.

Definition disaster_negative : list string :=
  ["disaster"; "devastation"; "destroyed"; "catastrophic"; "emergency";
   "crisis"; "collapse"; "dying"; "death"; "evacuation"].

Definition disaster_positive : list string :=
  ["restored"; "recovery"; "saved"; "protection"; "resilient"; "hope"; "success"].

Section Analyzer.

(** [TextBlob(text).sentiment.polarity]; [None] when it raises. *)
Variable polarity_of : string -> option Q.

(** [self.scraper.scrape_multiple_sources(keyword, max_tweets)]; [None] when
    it raises. *)
Variable scrape_multiple_sources : string -> nat -> option (list RawTweet).

(** [hash] on strings. *)
Variable hash : string -> Z.

(** The draws of the [i]-th iteration of [get_fallback_tech_demo_tweets]. *)
Variable draws : nat -> FallbackDraw.

(** [analyze_sentiment] from the estimator's polarity on. *)
Definition score_polarity (text : string) (polarity : Q) : sentiment :=
  let negative_boost := count_if (fun word => str_in word (lower text)) disaster_negative in
  let positive_boost := count_if (fun word => str_in word (lower text)) disaster_positive in
  let polarity :=
    polarity + (inject_Z (Z.of_nat positive_boost) * (2 # 10)
                - inject_Z (Z.of_nat negative_boost) * (3 # 10)) in
  let polarity := Qmax (- (1)) (Qmin 1 polarity) in
  let label :=
    if Qltb (1 # 10) polarity then "positive"
    else if Qltb polarity (- (1 # 10)) then "negative"
    else "neutral" in
  let confidence := Qmin (Qabs polarity * (15 # 10)) 1 in
  (polarity, label, confidence).

(** [analyze_sentiment]: the result and the cache after the call; [None]
    when the estimator raises, which nothing here catches. *)
Definition analyze_sentiment (text : string) (sentiment_cache : gmap string sentiment)
  : option (sentiment * gmap string sentiment) :=
  let text_key := strip (lower text) in
  match sentiment_cache !! text_key with
  | Some cached => Some (cached, sentiment_cache)
  | None =>
      polarity ← polarity_of text;
      let result := score_polarity text polarity in
      Some (result, <[text_key := result]> sentiment_cache)
  end.

(** [find_matching_keywords]: a list comprehension. *)
Definition find_matching_keywords (text : string) : list string :=
  List.filter (fun kw => str_in (lower kw) (lower text)) (KEYWORDS ++ EXTENDED_KEYWORDS).

(** The loop of [categorize_hazard] over [self.hazard_categories.items()]. *)
Fixpoint scan_items (items : list (string * list string)) (keywords : list string)
  : option string :=
  match items with
  | [] => None
  | (category, cat_keywords) :: rest =>
      if any (fun kw => list_in kw cat_keywords) keywords
      then Some category
      else scan_items rest keywords
  end.

(** [categorize_hazard]. *)
Definition categorize_hazard (keywords : list string) : string :=
  match scan_items hazard_categories keywords with
  | Some category => category
  | None => "general"
  end.

(** The tweet built in [search_ocean_hazards] for one raw tweet. *)
Definition live_tweet (raw_tweet : RawTweet) (matched_keywords : list string)
    (s : sentiment) (hazard_category : string) : OceanHazardTweet :=
  let '(sentiment_score, sentiment_label, confidence) := s in
  {| username := raw_username raw_tweet; handle := raw_handle raw_tweet;
     content := raw_content raw_tweet; timestamp := raw_timestamp raw_tweet;
     retweets := raw_retweets raw_tweet; likes := raw_likes raw_tweet;
     replies := raw_replies raw_tweet; tweet_id := raw_tweet_id raw_tweet;
     matched_keywords := matched_keywords; sentiment_score := sentiment_score;
     sentiment_label := sentiment_label; confidence := confidence;
     hazard_category := hazard_category; source := raw_source raw_tweet;
     location := None;
     verified := match raw_verified raw_tweet with Some b => b | None => false end |}.

(** The loop over [raw_tweets] inside the [try] of [search_ocean_hazards].
    When [analyze_sentiment] raises, the loop is left for the [except]
    branch: the tweets appended so far stay, the rest of this keyword's raw
    tweets is dropped. *)
Fixpoint raw_tweets_loop (raw_tweets : list RawTweet)
    (all_tweets : list OceanHazardTweet) (sentiment_cache : gmap string sentiment)
  : list OceanHazardTweet * gmap string sentiment :=
  match raw_tweets with
  | [] => (all_tweets, sentiment_cache)
  | raw_tweet :: rest =>
      match find_matching_keywords (raw_content raw_tweet) with
      | [] => raw_tweets_loop rest all_tweets sentiment_cache
      | matched_keywords =>
          match analyze_sentiment (raw_content raw_tweet) sentiment_cache with
          | None => (all_tweets, sentiment_cache)
          | Some (s, sentiment_cache) =>
              let hazard_category := categorize_hazard matched_keywords in
              raw_tweets_loop rest
                (all_tweets ++ [live_tweet raw_tweet matched_keywords s hazard_category])
                sentiment_cache
          end
      end
  end.

(** The loop over [priority_keywords]. *)
Fixpoint keywords_loop (max_tweets_per_keyword : nat) (priority_keywords : list string)
    (all_tweets : list OceanHazardTweet) (sentiment_cache : gmap string sentiment)
  : list OceanHazardTweet * gmap string sentiment :=
  match priority_keywords with
  | [] => (all_tweets, sentiment_cache)
  | keyword :: rest =>
      match scrape_multiple_sources keyword max_tweets_per_keyword with
      | None => keywords_loop max_tweets_per_keyword rest all_tweets sentiment_cache
      | Some raw_tweets =>
          let '(all_tweets, sentiment_cache) :=
            raw_tweets_loop raw_tweets all_tweets sentiment_cache in
          keywords_loop max_tweets_per_keyword rest all_tweets sentiment_cache
      end
  end.

(** [d[k] = v] on a dict kept in insertion order: an existing key keeps its
    place and takes the new value. *)
Fixpoint dict_set {V : Type} (k : Z) (v : V) (d : list (Z * V)) : list (Z * V) :=
  match d with
  | [] => [(k, v)]
  | (k', v') :: d' => if (k' =? k)%Z then (k', v) :: d' else (k', v') :: dict_set k v d'
  end.

(** [list({hash(t.content): t for t in all_tweets}.values())]. *)
Definition unique_by_content (all_tweets : list OceanHazardTweet) : list OceanHazardTweet :=
  map snd (fold_left (fun d t => dict_set (hash (content t)) t d) all_tweets []).

(** [search_ocean_hazards]. *)
Definition search_ocean_hazards (max_tweets_per_keyword : nat)
    (sentiment_cache : gmap string sentiment)
  : list OceanHazardTweet * gmap string sentiment :=
  let priority_keywords := firstn 8 KEYWORDS in
  let '(all_tweets, sentiment_cache) :=
    keywords_loop max_tweets_per_keyword priority_keywords [] sentiment_cache in
  (unique_by_content all_tweets, sentiment_cache).

(** The [demo_data] table of [get_fallback_tech_demo_tweets]. *)
Definition demo_data : list DemoEntry :=
  [
    {| data_content := "🚀 SpaceX successfully launched 60 more Starlink satellites! Global internet coverage expanding rapidly. The future is here! #SpaceX #Technology";
       data_username := "SpaceFan2024"; data_handle := "spacefan2024";
       data_keywords := []; data_category := "tech" |};
    {| data_content := "AI breakthrough: New machine learning model achieves 99% accuracy in medical diagnosis. Healthcare will never be the same! 🏥💡 #AI #HealthTech";
       data_username := "TechNews"; data_handle := "technews";
       data_keywords := []; data_category := "tech" |};
    {| data_content := "Crypto market is crashing again 📉 Bitcoin down 15% today. HODL or sell? This volatility is insane! #Bitcoin #Crypto";
       data_username := "CryptoTrader"; data_handle := "cryptotrader";
       data_keywords := []; data_category := "finance" |};
    {| data_content := "Just tried the new iPhone 15 Pro Max camera. The photo quality is absolutely incredible! Apple keeps raising the bar 📸✨ #iPhone15 #Photography";
       data_username := "TechReviewer"; data_handle := "techreviewer";
       data_keywords := []; data_category := "tech" |};
    {| data_content := "Electric vehicle sales surged 40% this quarter! Tesla, Ford, and GM leading the charge. Goodbye gas stations! ⚡🚗 #EV #CleanEnergy";
       data_username := "GreenTech"; data_handle := "greentech";
       data_keywords := []; data_category := "eco" |}
  ].

(** The tweet built by iteration [i] of [get_fallback_tech_demo_tweets]. *)
Definition fallback_tweet (i : nat) (data : DemoEntry) (s : sentiment) : OceanHazardTweet :=
  let '(sentiment_score, sentiment_label, confidence) := s in
  {| username := data_username data; handle := data_handle data;
     content := data_content data;
     timestamp := now (draws i); retweets := rand_retweets (draws i);
     likes := rand_likes (draws i); replies := rand_replies (draws i);
     tweet_id := String.append "fallback_" (format_03d (i + 1));
     matched_keywords := data_keywords data;
     sentiment_score := sentiment_score; sentiment_label := sentiment_label;
     confidence := confidence; hazard_category := data_category data;
     source := "FALLBACK_DEMO";
     location := None;
     verified := rand_verified (draws i) |}.

(** The loop of [get_fallback_tech_demo_tweets]; [None] when
    [analyze_sentiment] raises. *)
Fixpoint fallback_loop (i : nat) (entries : list DemoEntry)
    (tweets : list OceanHazardTweet) (sentiment_cache : gmap string sentiment)
  : option (list OceanHazardTweet * gmap string sentiment) :=
  match entries with
  | [] => Some (tweets, sentiment_cache)
  | data :: rest =>
      '(s, sentiment_cache) ← analyze_sentiment (data_content data) sentiment_cache;
      fallback_loop (S i) rest (tweets ++ [fallback_tweet i data s]) sentiment_cache
  end.

Definition get_fallback_tech_demo_tweets (sentiment_cache : gmap string sentiment)
  : option (list OceanHazardTweet * gmap string sentiment) :=
  fallback_loop 0 demo_data [] sentiment_cache.

End Analyzer.

(** *** The report *)

(** An entry of [report["by_hazard_category"]]; the last two fields are its
    ["avg_engagement"] dict, which has no ["replies"] here. *)
Record CategoryStats := {
  cat_total_tweets : nat;
  cat_sentiment_distribution : list (string * nat);
  cat_avg_sentiment_score : Q;
  cat_avg_likes : Q;
  cat_avg_retweets : Q
}.

(** The full report: ["summary"], ["by_hazard_category"], ["top_keywords"]
    and ["notable_tweets"], whose entries are [asdict] of a tweet. *)
Record Report := {
  total_tweets : nat;
  sentiment_distribution : list (string * nat);
  avg_sentiment_score : Q;
  by_hazard_category : gmap string CategoryStats;
  top_keywords : list (string * nat);
  most_negative : OceanHazardTweet;
  most_positive : OceanHazardTweet;
  most_engaging : OceanHazardTweet
}.

Inductive ReportResult :=
| NoData (error : string)
| FullReport (report : Report).

(** The body of the category loop for one [category]; [Some None] is the
    [continue] on an empty [cat_tweets]. *)
Definition category_stats (tweets : list OceanHazardTweet) (category : string)
  : option (option CategoryStats) :=
  let cat_tweets := List.filter (fun t => String.eqb (hazard_category t) category) tweets in
  match cat_tweets with
  | [] => Some None
  | _ :: _ =>
      avg_score ← py_div (sumQ sentiment_score cat_tweets) (length cat_tweets);
      avg_likes ← py_div (inject_Z (sumZ likes cat_tweets)) (length cat_tweets);
      avg_retweets ← py_div (inject_Z (sumZ retweets cat_tweets)) (length cat_tweets);
      Some (Some
        {| cat_total_tweets := length cat_tweets;
           cat_sentiment_distribution := Counter (map sentiment_label cat_tweets);
           cat_avg_sentiment_score := py_round avg_score 3;
           cat_avg_likes := py_round avg_likes 1;
           cat_avg_retweets := py_round avg_retweets 1 |})
  end.

(** The category loop, run over the distinct categories in the order of their
    first tweet; the dict it fills is a map. *)
Fixpoint category_loop (tweets : list OceanHazardTweet) (todo : list string)
    (categories : gmap string CategoryStats) : option (gmap string CategoryStats) :=
  match todo with
  | [] => Some categories
  | category :: rest =>
      stats ← category_stats tweets category;
      match stats with
      | None => category_loop tweets rest categories
      | Some stats => category_loop tweets rest (<[category := stats]> categories)
      end
  end.

(** [generate_sentiment_report]; [None] is an exception. *)
Definition generate_sentiment_report (tweets : list OceanHazardTweet) : option ReportResult :=
  match tweets with
  | [] => Some (NoData "No tweets to analyze")
  | _ :: _ =>
      let sentiment_counts := Counter (map sentiment_label tweets) in
      categories ← category_loop tweets (distinct (map hazard_category tweets)) ∅;
      let all_keywords := concat (map matched_keywords tweets) in
      most_negative ← py_min sentiment_score tweets;
      most_positive ← py_max sentiment_score tweets;
      most_engaging ← py_max (fun t => inject_Z (likes t + retweets t)) tweets;
      avg ← py_div (sumQ sentiment_score tweets) (length tweets);
      Some (FullReport
        {| total_tweets := length tweets;
           sentiment_distribution := sentiment_counts;
           avg_sentiment_score := py_round avg 3;
           by_hazard_category := categories;
           top_keywords := most_common 15 (Counter all_keywords);
           most_negative := most_negative;
           most_positive := most_positive;
           most_engaging := most_engaging |})
  end.

End Live.

(** ** The closed set of hazard categories *)

(** The categories of the spec's section 4.2: the keys of
    [hazard_categories]. *)
Definition closed_categories : list string := map fst hazard_categories.

(** ** Runs of the sentiment scorer *)

(** One call of [analyze_sentiment], as a step on the cache; in the live
    program a call that raises leaves the cache as it was. *)
Definition demo_call (polarity_of : string -> option Q)
    (cache : gmap string sentiment) (text : string) : gmap string sentiment :=
  snd (Demo.analyze_sentiment polarity_of text cache).

Definition live_call (polarity_of : string -> option Q)
    (cache : gmap string sentiment) (text : string) : gmap string sentiment :=
  match Live.analyze_sentiment polarity_of text cache with
  | Some (_, cache') => cache'
  | None => cache
  end.

(** The cache after [analyze_sentiment] has been called on each text of
    [texts] in turn, starting from the empty cache of [__init__]. *)
Definition demo_cache_after (polarity_of : string -> option Q) (texts : list string)
  : gmap string sentiment :=
  fold_left (demo_call polarity_of) texts ∅.

Definition live_cache_after (polarity_of : string -> option Q) (texts : list string)
  : gmap string sentiment :=
  fold_left (live_call polarity_of) texts ∅.

(** ** The categoriser's contract, in the spec's words *)

(** A category is hit on substring containment when some matched keyword,
    lower-cased, contains one of the category's keywords, lower-cased. *)
Definition substring_hit (keywords : list string) (category : string) : Prop :=
  exists cat_keywords cat_keyword kw,
    dict_get hazard_categories category = Some cat_keywords
    /\ In cat_keyword cat_keywords /\ In kw keywords
    /\ occurs_in (lower cat_keyword) (lower kw).

(** A category is hit on membership when some matched keyword is equal to one
    of the category's keywords. *)
Definition member_hit (keywords : list string) (category : string) : Prop :=
  exists cat_keywords kw,
    dict_get hazard_categories category = Some cat_keywords
    /\ In kw keywords /\ In kw cat_keywords.

(** [category] is the first entry of [order] that is hit. *)
Definition first_hit (hit : string -> Prop) (order : list string) (category : string) : Prop :=
  exists before after,
    order = before ++ category :: after
    /\ hit category /\ forall c, In c before -> ~ hit c.

(** ** The sentiment scorer's contract, in the spec's words *)

(** The sentiment triple carried by a tweet. *)
Definition demo_tweet_sentiment (t : Demo.OceanHazardTweet) : sentiment :=
  (Demo.sentiment_score t, Demo.sentiment_label t, Demo.confidence t).

Definition live_tweet_sentiment (t : Live.OceanHazardTweet) : sentiment :=
  (Live.sentiment_score t, Live.sentiment_label t, Live.confidence t).

(** Label and score agree for the threshold [threshold]: positive exactly
    above it, negative exactly below its opposite, neutral otherwise. *)
Definition label_coherent (threshold : Q) (s : sentiment) : Prop :=
  let '(score, label, _) := s in
  (label = "positive" <-> (threshold < score)%Q)
  /\ (label = "negative" <-> (score < - threshold)%Q)
  /\ (label = "neutral" <-> (~ threshold < score /\ ~ score < - threshold)%Q).

(** The polarity lies in [-1, 1] and the confidence in [0, 1]. *)
Definition in_bounds (s : sentiment) : Prop :=
  let '(score, _, confidence) := s in
  (- (1) <= score /\ score <= 1 /\ 0 <= confidence /\ confidence <= 1)%Q.

(** The confidence is at least 0.2. *)
Definition confident (s : sentiment) : Prop :=
  let '(_, _, confidence) := s in (2 # 10 <= confidence)%Q.

(** Python's [==] on result triples: floats compare by value. *)
Definition sentiment_eq (s1 s2 : sentiment) : Prop :=
  let '(score1, label1, confidence1) := s1 in
  let '(score2, label2, confidence2) := s2 in
  (score1 == score2)%Q /\ label1 = label2 /\ (confidence1 == confidence2)%Q.

(** ** The report's contract, in the spec's words *)

(** [y] is [x] rounded to [ndigits] decimals: a multiple of [10^-ndigits] at
    most half a unit of the last decimal away from [x]. *)
Definition rounded_to (ndigits : nat) (x y : Q) : Prop :=
  exists k : Z,
    (y == inject_Z k / inject_Z (10 ^ Z.of_nat ndigits))%Q
    /\ (Qabs (y - x) * inject_Z (2 * 10 ^ Z.of_nat ndigits) <= 1)%Q.

(** The entries of a label distribution: one for each label that occurs,
    with the number of its occurrences. *)
Definition distribution_of (labels : list string) (distribution : list (string * nat)) : Prop :=
  forall label,
    dict_get distribution label
    = match count_occ string_dec labels label with
      | O => None
      | S k => Some (S k)
      end.

(** [stats] is the breakdown of [category] in the demo program's report:
    count, label distribution, mean score to 3 decimals, mean likes, retweets
    and replies to 1 decimal. *)
Definition demo_breakdown_of (tweets : list Demo.OceanHazardTweet) (category : string)
    (stats : Demo.CategoryStats) : Prop :=
  let cat_tweets :=
    List.filter (fun t => String.eqb (Demo.hazard_category t) category) tweets in
  let n := inject_Z (Z.of_nat (length cat_tweets)) in
  (0 < length cat_tweets)%nat
  /\ Demo.cat_total_tweets stats = length cat_tweets
  /\ distribution_of (map Demo.sentiment_label cat_tweets) (Demo.cat_sentiment_distribution stats)
  /\ rounded_to 3 (sumQ Demo.sentiment_score cat_tweets / n) (Demo.cat_avg_sentiment_score stats)
  /\ rounded_to 1 (inject_Z (sumZ Demo.likes cat_tweets) / n) (Demo.cat_avg_likes stats)
  /\ rounded_to 1 (inject_Z (sumZ Demo.retweets cat_tweets) / n) (Demo.cat_avg_retweets stats)
  /\ rounded_to 1 (inject_Z (sumZ Demo.replies cat_tweets) / n) (Demo.cat_avg_replies stats).



(** * The scraper, [TwitterScraper] of [web_scarper.py] *)

Module Scraper.

(** The Nitter mirrors tried by [scrape_nitter_search], in order. *)
Definition nitter_instances : list string :=
  ["nitter.net"; "nitter.it"; "nitter.unixfox.eu"; "nitter.domain.glass"].

Section TwitterScraper.

(** One request to a Nitter instance for a query: [None] when the request
    or the parsing raises or the status is not 200, otherwise the page's
    [timeline-item] containers, each given by what
    [extract_nitter_tweet_data] returns for it ([None] when it returns
    [None]). *)
Variable nitter_page : string -> string -> option (list (option Live.RawTweet)).

(** [setup_driver()] for a query. *)
Variable setup_driver : string -> bool.

(** [self.driver.get(search_url)] and the wait for the first tweet; [false]
    when one of them raises. *)
Variable open_search : string -> bool.

(** [find_elements] at a scroll attempt: [None] when it raises, otherwise
    the elements, each given by what [extract_selenium_tweet_data] returns
    for it. *)
Variable find_elements : string -> nat -> option (list (option Live.RawTweet)).

(** [execute_script] (the scroll) at a scroll attempt; [false] when it
    raises. *)
Variable scroll : string -> nat -> bool.

(** [hash] on strings. *)
Variable hash : string -> Z.

(** The tweets appended for one page: the containers whose extraction gave
    a tweet. *)
Fixpoint extracted (containers : list (option Live.RawTweet)) : list Live.RawTweet :=
  match containers with
  | [] => []
  | Some tweet_data :: rest => tweet_data :: extracted rest
  | None :: rest => extracted rest
  end.

(** The loop of [scrape_nitter_search] over the instances.  [tweets] is
    empty whenever an instance is tried, since a non-empty [tweets] is
    returned at once. *)
Fixpoint nitter_loop (instances : list string) (query : string) (max_tweets : nat)
  : list Live.RawTweet :=
  match instances with
  | [] => []
  | instance :: rest =>
      match nitter_page instance query with
      | None => nitter_loop rest query max_tweets
      | Some tweet_containers =>
          match extracted (firstn max_tweets tweet_containers) with
          | [] => nitter_loop rest query max_tweets
          | tweets => tweets
          end
      end
  end.

(** [scrape_nitter_search]. *)
Definition scrape_nitter_search (query : string) (max_tweets : nat) : list Live.RawTweet :=
  nitter_loop nitter_instances query max_tweets.

(** The [for element in tweet_elements] loop of [scrape_twitter_selenium];
    it breaks when [max_tweets] tweets are collected. *)
Fixpoint element_loop (tweet_elements : list (option Live.RawTweet)) (max_tweets : nat)
    (tweets : list Live.RawTweet) (tweet_ids : gset string)
  : list Live.RawTweet * gset string :=
  match tweet_elements with
  | [] => (tweets, tweet_ids)
  | None :: rest => element_loop rest max_tweets tweets tweet_ids
  | Some tweet_data :: rest =>
      if decide (Live.raw_tweet_id tweet_data ∈ tweet_ids)
      then element_loop rest max_tweets tweets tweet_ids
      else
        let tweets := tweets ++ [tweet_data] in
        let tweet_ids := {[Live.raw_tweet_id tweet_data]} ∪ tweet_ids in
        if (max_tweets <=? length tweets)%nat
        then (tweets, tweet_ids)
        else element_loop rest max_tweets tweets tweet_ids
  end.

(** The [while] loop of [scrape_twitter_selenium]; [remaining] is
    [15 - scroll_attempts].  An exception leaves the loop for the handler,
    which returns the tweets collected so far. *)
Fixpoint scroll_loop (remaining : nat) (query : string) (max_tweets : nat)
    (tweets : list Live.RawTweet) (tweet_ids : gset string) : list Live.RawTweet :=
  match remaining with
  | O => tweets
  | S remaining' =>
      if (length tweets <? max_tweets)%nat then
        let scroll_attempts := (15 - remaining)%nat in
        match find_elements query scroll_attempts with
        | None => tweets
        | Some tweet_elements =>
            let '(tweets, tweet_ids) :=
              element_loop tweet_elements max_tweets tweets tweet_ids in
            if (max_tweets <=? length tweets)%nat then tweets
            else if scroll query scroll_attempts
                 then scroll_loop remaining' query max_tweets tweets tweet_ids
                 else tweets
        end
      else tweets
  end.

(** [scrape_twitter_selenium]. *)
Definition scrape_twitter_selenium (query : string) (max_tweets : nat) : list Live.RawTweet :=
  if setup_driver query then
    if open_search query then scroll_loop 15 query max_tweets [] ∅ else []
  else [].

(** The deduplication loop of [scrape_multiple_sources]. *)
Fixpoint unique_loop (all_tweets unique_tweets : list Live.RawTweet) (seen_content : gset Z)
  : list Live.RawTweet :=
  match all_tweets with
  | [] => unique_tweets
  | tweet :: rest =>
      let content_hash := hash (Live.raw_content tweet) in
      if decide (content_hash ∈ seen_content)
      then unique_loop rest unique_tweets seen_content
      else unique_loop rest (unique_tweets ++ [tweet]) ({[content_hash]} ∪ seen_content)
  end.

(** [scrape_multiple_sources]; [len(all_tweets) < max_tweets / 2] is
    [2 * len(all_tweets) < max_tweets]. *)
Definition scrape_multiple_sources (query : string) (max_tweets : nat) : list Live.RawTweet :=
  let all_tweets := scrape_nitter_search query max_tweets in
  let all_tweets :=
    if (2 * length all_tweets <? max_tweets)%nat
    then all_tweets ++ scrape_twitter_selenium query (max_tweets - length all_tweets)
    else all_tweets in
  unique_loop all_tweets [] ∅.

End TwitterScraper.

End Scraper.

(** * The [main] functions *)

(** Of [main] the model keeps what decides its course: the tweets it
    analyses, the branch it takes and the values whose computation can
    raise.  The text it prints and the files it writes are left out. *)

Module DemoMain.

Local Open Scope Q_scope.

(** What [main] of [web_scraper.py] does: it reports on the tweets, printing
    the [percentages] of the sentiment distribution on the way, or prints
    "No tweets found." *)
Inductive MainOutcome :=
| Reported (tweets : list Demo.OceanHazardTweet) (report : Demo.Report)
    (percentages : list (string * Q))
| NoTweets.

(** [(count / summary['total_tweets']) * 100] for each entry of the
    sentiment distribution; [None] is the division by zero. *)
Fixpoint percentages (distribution : list (string * nat)) (total_tweets : nat)
  : option (list (string * Q)) :=
  match distribution with
  | [] => Some []
  | (sentiment, count) :: rest =>
      ratio ← py_div (inject_Z (Z.of_nat count)) total_tweets;
      others ← percentages rest total_tweets;
      Some ((sentiment, ratio * 100) :: others)
  end.

Section Main.

Variable polarity_of : string -> option Q.
Variable draws : nat -> Demo.DemoDraw.

(** [main]; the analyzer is a new one, so its cache is empty.  [None] is an
    exception: one of [generate_sentiment_report], the [KeyError] of
    [report['summary']] on the error dict, or the division by zero. *)
Definition main : option MainOutcome :=
  let '(tweets, _) := Demo.search_ocean_hazards polarity_of draws ∅ in
  match tweets with
  | [] => Some NoTweets
  | _ :: _ =>
      result ← Demo.generate_sentiment_report tweets;
      match result with
      | Demo.NoData _ => None
      | Demo.FullReport report =>
          percentages ← percentages (Demo.sentiment_distribution report)
                          (Demo.total_tweets report);
          Some (Reported tweets report percentages)
      end
  end.

End Main.

End DemoMain.

Module LiveMain.

(** What [main] of [web_scarper.py] does: it displays the tweets under a
    header and saves them and their report under a file name prefix, or
    prints "No tweets found to analyze." *)
Inductive MainOutcome :=
| Analysed (tweets : list Live.OceanHazardTweet) (header filename_prefix : string)
    (report : Live.ReportResult)
| NoTweets.

(** The header chosen by [display_tweets]; [None] is the [IndexError] of
    [tweets[0]]. *)
Definition display_header (tweets : list Live.OceanHazardTweet) : option string :=
  match tweets with
  | [] => None
  | tweet :: _ =>
      Some (if negb (String.eqb (Live.source tweet) "FALLBACK_DEMO")
            then "REAL DATA" else "FALLBACK DEMO")
  end.

Section Main.

Variable polarity_of : string -> option Q.
Variable scrape_multiple_sources : string -> nat -> option (list Live.RawTweet).
Variable hash : string -> Z.
Variable draws : nat -> Live.FallbackDraw.

(** The tweets that [main] analyses and its file name prefix: the scraped
    tweets, or the fallback tweets when there are none.  The analyzer is a
    new one, so the cache of the search is empty; the fallback runs on the
    cache that the search left. *)
Definition tweets_to_analyze : option (list Live.OceanHazardTweet * string) :=
  let '(tweets_to_analyze, sentiment_cache) :=
    Live.search_ocean_hazards polarity_of scrape_multiple_sources hash 15 ∅ in
  match tweets_to_analyze with
  | [] =>
      '(tweets_to_analyze, _) ←
        Live.get_fallback_tech_demo_tweets polarity_of draws sentiment_cache;
      Some (tweets_to_analyze, "fallback_demo")
  | _ :: _ => Some (tweets_to_analyze, "ocean_hazard_real")
  end.

(** [main]; [None] is an exception. *)
Definition main : option MainOutcome :=
  '(tweets_to_analyze, filename_prefix) ← tweets_to_analyze;
  match tweets_to_analyze with
  | [] => Some NoTweets
  | _ :: _ =>
      header ← display_header tweets_to_analyze;
      report ← Live.generate_sentiment_report tweets_to_analyze;
      Some (Analysed tweets_to_analyze header filename_prefix report)
  end.

End Main.

End LiveMain.


(** ** Contracts used by the further properties *)

(** A Nitter instance yields nothing for a query when its request fails or
    none of its first [max_tweets] containers gives a tweet. *)
Definition yields_nothing (nitter_page : string -> string -> option (list (option Live.RawTweet)))
    (query : string) (max_tweets : nat) (instance : string) : Prop :=
  match nitter_page instance query with
  | None => True
  | Some containers => Scraper.extracted (firstn max_tweets containers) = []
  end.

(** The state of the Selenium loop: the ids seen are the ids of the tweets
    collected, and no id is collected twice. *)
Definition ids_agree (tweets : list Live.RawTweet) (tweet_ids : gset string) : Prop :=
  List.NoDup (map Live.raw_tweet_id tweets)
  /\ forall id, id ∈ tweet_ids <-> In id (map Live.raw_tweet_id tweets).

(** The state of the deduplication loop of [scrape_multiple_sources]. *)
Definition hashes_agree (hash : string -> Z) (unique_tweets : list Live.RawTweet)
    (seen_content : gset Z) : Prop :=
  List.NoDup (map (fun t => hash (Live.raw_content t)) unique_tweets)
  /\ forall h, h ∈ seen_content <-> In h (map (fun t => hash (Live.raw_content t)) unique_tweets).

(** [t] is the tweet that [search_ocean_hazards] builds from the raw tweet
    [raw]: the raw fields copied, the matched keywords of the content, which
    are not empty, and their category. *)
Definition built_from (raw : Live.RawTweet) (t : Live.OceanHazardTweet) : Prop :=
  Live.find_matching_keywords (Live.raw_content raw) <> []
  /\ exists s,
       t = Live.live_tweet raw (Live.find_matching_keywords (Live.raw_content raw)) s
             (Live.categorize_hazard (Live.find_matching_keywords (Live.raw_content raw))).

(** [t] is the last tweet of [tweets] with its content hash. *)
Definition last_with_hash (hash : string -> Z) (tweets : list Live.OceanHazardTweet)
    (t : Live.OceanHazardTweet) : Prop :=
  exists earlier later,
    tweets = earlier ++ t :: later
    /\ forall t', In t' later -> hash (Live.content t') <> hash (Live.content t).

(** The number of raw tweets that the scraper returns for the keywords. *)
Fixpoint scraped_count (scrape_multiple_sources : string -> nat -> option (list Live.RawTweet))
    (n : nat) (keywords : list string) : nat :=
  match keywords with
  | [] => O
  | keyword :: rest =>
      match scrape_multiple_sources keyword n with
      | Some raw_tweets => length raw_tweets + scraped_count scrape_multiple_sources n rest
      | None => scraped_count scrape_multiple_sources n rest
      end
  end.

(** The values that [random.randint(50, 300)] and the three
    [random.uniform] calls of [get_demo_tweets] can return. *)
Definition draw_in_range (d : Demo.DemoDraw) : Prop :=
  (50 <= Demo.base_engagement d <= 300)%Z
  /\ (3 # 10 <= Demo.uniform_retweets d /\ Demo.uniform_retweets d <= 8 # 10)%Q
  /\ (1 <= Demo.uniform_likes d /\ Demo.uniform_likes d <= 25 # 10)%Q
  /\ (1 # 10 <= Demo.uniform_replies d /\ Demo.uniform_replies d <= 4 # 10)%Q.

(** The fields that [get_demo_tweets] copies from a table entry. *)
Definition demo_tweet_copied (t : Demo.OceanHazardTweet)
  : string * string * string * list string * string :=
  (Demo.username t, Demo.handle t, Demo.content t, Demo.matched_keywords t,
   Demo.hazard_category t).

Definition demo_entry_copied (data : DemoEntry)
  : string * string * string * list string * string :=
  (data_username data, data_handle data, data_content data, data_keywords data,
   data_category data).








(** A percentage of a non-empty share. *)
Definition percentage (p : Q) : Prop := (0 < p /\ p <= 100)%Q.

(** * Properties *)

(** ** The definitions on concrete inputs *)

Section Examples.

Local Open Scope Q_scope.

Example strip_lower_example :
  strip (lower "  Storm SURGE ") = "storm surge".
Proof. reflexivity. Qed.

Example matcher_example :
  Demo.find_matching_keywords
    "URGENT: 7.8 magnitude underwater earthquake triggers Tsunami warning"
  = ["tsunami"; "underwater earthquake"].
Proof. reflexivity. Qed.

Example matcher_vocabulary_order_example :
  Live.find_matching_keywords "Coastal flooding after the storm surge"
  = ["storm surge"; "flood"; "coastal flooding"].
Proof. reflexivity. Qed.

Example categorizer_example :
  Demo.categorize_hazard ["storm surge"; "flood"; "coastal flooding"] = Some "storms"
  /\ Live.categorize_hazard ["storm surge"; "flood"; "coastal flooding"] = "storms".
Proof. split; reflexivity. Qed.

Example categorizer_no_keyword_example :
  Demo.categorize_hazard [] = Some "unknown" /\ Live.categorize_hazard [] = "general".
Proof. split; reflexivity. Qed.

(** Two words of the negative list occur: the polarity 0 becomes -0.6. *)
Example demo_score_example :
  sentiment_eq (Demo.score_polarity "Tsunami emergency: evacuation underway" 0)
    (- (6 # 10), "negative", 8 # 10).
Proof. vm_compute. repeat split. Qed.

Example live_score_example :
  sentiment_eq (Live.score_polarity "Tsunami emergency: evacuation underway" 0)
    (- (6 # 10), "negative", 9 # 10).
Proof. vm_compute. repeat split. Qed.

Example py_round_example :
  py_round (1 # 8) 2 == 12 # 100 /\ py_round (3 # 8) 2 == 38 # 100
  /\ py_round (2 # 3) 3 == 667 # 1000 /\ py_round (25 # 2) 0 == 12.
Proof. repeat split. Qed.

Example most_common_example :
  most_common 2 (Counter ["flood"; "tsunami"; "oil spill"; "tsunami"; "oil spill"; "cyclone"])
  = [("tsunami", 2%nat); ("oil spill", 2%nat)].
Proof. reflexivity. Qed.

Example format_example : format_03d 7 = "007" /\ py_int (- (7 # 2)) = (-3)%Z.
Proof. split; reflexivity. Qed.

End Examples.

(** ** Strings *)

Section StringFacts.

Lemma prefix_split (sub s : string) :
  String.prefix sub s = true <-> exists post, s = sub +:+ post.
Proof.
  revert s. induction sub as [|c sub IH]; intros s; simpl.
  - split; [intros _; exists s; reflexivity | intros _; now destruct s].
  - destruct s as [|c' s]; simpl.
    + split; [discriminate | intros [post H]; discriminate].
    + destruct (Ascii.ascii_dec c c') as [->|Hne].
      * rewrite IH. split; intros [post H]; exists post.
        -- now rewrite H.
        -- now inversion H.
      * split; [discriminate | intros [post H]; inversion H; congruence].
Qed.

(** The substring test decides the occurrence of [sub] in [s]. *)
Lemma str_in_occurs (sub s : string) : str_in sub s = true <-> occurs_in sub s.
Proof.
  unfold occurs_in. induction s as [|c s IH]; cbn [str_in].
  - rewrite orb_false_r, prefix_split. split.
    + intros [post H]. exists "", post. exact H.
    + intros [pre [post H]]. destruct pre; simpl in H; [eauto | discriminate].
  - rewrite orb_true_iff, prefix_split, IH. split.
    + intros [[post H] | [pre [post H]]].
      * exists "", post. exact H.
      * exists (String c pre), post. simpl. now rewrite H.
    + intros [pre [post H]]. destruct pre as [|c' pre]; simpl in H.
      * left. eauto.
      * right. inversion H. eauto.
Qed.

Lemma str_in_empty_text (sub : string) : sub <> "" -> str_in sub "" = false.
Proof. destruct sub; [congruence | reflexivity]. Qed.

Lemma lower_empty_inv (s : string) : lower s = "" -> s = "".
Proof. destruct s; [reflexivity | discriminate]. Qed.

End StringFacts.

(** ** The keyword matcher *)

Section KeywordMatcher.


Lemma vocabulary_nonempty_entries : Forall (fun kw => lower kw <> "") vocabulary.
Proof. repeat constructor; discriminate. Qed.

(** The accumulating loop of the demo program computes a filter. *)
Lemma append_loop_filter (p : string -> bool) (l acc : list string) :
  fold_left (fun matching kw => if p kw then matching ++ [kw] else matching) l acc
  = acc ++ List.filter p l.
Proof.
  revert acc. induction l as [|kw l IH]; intros acc; simpl.
  - now rewrite app_nil_r.
  - rewrite IH. destruct (p kw); [now rewrite <- app_assoc | reflexivity].
Qed.

Lemma demo_matcher_filter (text : string) :
  Demo.find_matching_keywords text
  = List.filter (fun kw => str_in (lower kw) (lower text)) vocabulary.
Proof. unfold Demo.find_matching_keywords. now rewrite append_loop_filter. Qed.




End KeywordMatcher.

(** ** The hazard categoriser *)

Section Categorizer.

Lemma existsb_In_iff {A : Type} (p : A -> bool) (l : list A) :
  existsb p l = true <-> exists x, In x l /\ p x = true.
Proof. apply existsb_exists. Qed.

Lemma list_in_In (x : string) (xs : list string) : list_in x xs = true <-> In x xs.
Proof.
  unfold list_in. rewrite existsb_exists. split.
  - intros [y [Hy Heq]]. apply String.eqb_eq in Heq. now subst.
  - intros H. exists x. split; [exact H | apply String.eqb_refl].
Qed.

(** The demo program's hit test decides [substring_hit]. *)
Lemma demo_category_hit_iff (keywords : list string) (category : string)
    (cat_keywords : list string) :
  dict_get hazard_categories category = Some cat_keywords ->
  Demo.category_hit (map lower keywords) cat_keywords = true
  <-> substring_hit keywords category.
Proof.
  intros Hget. unfold Demo.category_hit, any, substring_hit.
  rewrite existsb_exists. split.
  - intros [ck [Hck Hany]]. apply existsb_exists in Hany as [kwl [Hkwl Hin]].
    apply in_map_iff in Hkwl as [kw [<- Hkw]].
    exists cat_keywords, ck, kw. repeat split; try assumption.
    now apply str_in_occurs.
  - intros [cks [ck [kw [Hget' [Hck [Hkw Hocc]]]]]].
    rewrite Hget in Hget'. inversion Hget'; subst cks.
    exists ck. split; [exact Hck|]. apply existsb_exists.
    exists (lower kw). split; [now apply in_map | now apply str_in_occurs].
Qed.

(** The live program's hit test decides [member_hit]. *)
Lemma live_category_hit_iff (keywords : list string) (category : string)
    (cat_keywords : list string) :
  dict_get hazard_categories category = Some cat_keywords ->
  any (fun kw => list_in kw cat_keywords) keywords = true
  <-> member_hit keywords category.
Proof.
  intros Hget. unfold any, member_hit. rewrite existsb_exists. split.
  - intros [kw [Hkw Hin]]. exists cat_keywords, kw. repeat split; try assumption.
    now apply list_in_In.
  - intros [cks [kw [Hget' [Hkw Hin]]]].
    rewrite Hget in Hget'. inversion Hget'; subst cks.
    exists kw. split; [exact Hkw | now apply list_in_In].
Qed.

(** The demo program's scan returns the first category that is hit. *)
Lemma demo_scan_first_hit (keywords before after : list string) (category : string) :
  Forall (fun c => is_Some (dict_get hazard_categories c)) (before ++ category :: after) ->
  substring_hit keywords category ->
  (forall c, In c before -> ~ substring_hit keywords c) ->
  Demo.scan_categories (map lower keywords) (before ++ category :: after)
  = Some (Some category).
Proof.
  induction before as [|c before IH]; simpl; intros Hkeys Hhit Hnone.
  - inversion Hkeys as [|? ? [cks Hcks] _]; subst. rewrite Hcks.
    apply (demo_category_hit_iff _ _ _ Hcks) in Hhit. now rewrite Hhit.
  - inversion Hkeys as [|? ? [cks Hcks] Hrest]; subst. rewrite Hcks.
    destruct (Demo.category_hit (map lower keywords) cks) eqn:Hc.
    + exfalso. apply (Hnone c (or_introl eq_refl)).
      now apply (demo_category_hit_iff _ _ _ Hcks).
    + apply IH; [exact Hrest | exact Hhit | intros c' Hc'; apply Hnone; now right].
Qed.

(** Without a hit the demo program's scan runs to its end. *)
Lemma demo_scan_no_hit (keywords order : list string) :
  Forall (fun c => is_Some (dict_get hazard_categories c)) order ->
  (forall c, In c order -> ~ substring_hit keywords c) ->
  Demo.scan_categories (map lower keywords) order = Some None.
Proof.
  induction order as [|c order IH]; simpl; intros Hkeys Hnone; [reflexivity|].
  inversion Hkeys as [|? ? [cks Hcks] Hrest]; subst. rewrite Hcks.
  destruct (Demo.category_hit (map lower keywords) cks) eqn:Hc.
  - exfalso. apply (Hnone c (or_introl eq_refl)).
    now apply (demo_category_hit_iff _ _ _ Hcks).
  - apply IH; [exact Hrest | intros c' Hc'; apply Hnone; now right].
Qed.

Lemma priority_keys : Forall (fun c => is_Some (dict_get hazard_categories c)) Demo.category_priority.
Proof. repeat constructor; eexists; reflexivity. Qed.

Lemma items_NoDup : List.NoDup (map fst hazard_categories).
Proof. apply NoDup_ListNoDup, (bool_decide_unpack _). vm_compute. exact I. Qed.

(** In a dict without repeated keys, an item is what a lookup of its key
    returns. *)
Lemma dict_get_item {V : Type} (d1 d2 : list (string * V)) (k : string) (v : V) :
  ~ In k (map fst d1) -> dict_get (d1 ++ (k, v) :: d2) k = Some v.
Proof.
  induction d1 as [|[k' v'] d1 IH]; simpl; intros Hk.
  - now rewrite String.eqb_refl.
  - destruct (String.eqb k' k) eqn:E.
    + apply String.eqb_eq in E. exfalso. apply Hk. now left.
    + apply IH. intros Hin. apply Hk. now right.
Qed.

(** The live program's scan returns the first item that is hit. *)
Lemma live_scan_first_hit (keywords : list string)
    (done_items rest : list (string * list string))
    (category : string) (cat_keywords : list string) :
  (forall c cks, In (c, cks) done_items ->
                 any (fun kw => list_in kw cks) keywords = false) ->
  any (fun kw => list_in kw cat_keywords) keywords = true ->
  Live.scan_items (done_items ++ (category, cat_keywords) :: rest) keywords = Some category.
Proof.
  induction done_items as [|[c cks] done_items IH]; simpl; intros Hnone Hhit.
  - now rewrite Hhit.
  - rewrite (Hnone c cks (or_introl eq_refl)). apply IH; [|exact Hhit].
    intros c' cks' Hin. apply (Hnone c' cks'). now right.
Qed.

End Categorizer.

Section CategorizerContract.

Lemma dict_get_In {V : Type} (d : list (string * V)) (k : string) (v : V) :
  List.NoDup (map fst d) -> In (k, v) d -> dict_get d k = Some v.
Proof.
  induction d as [|[k' v'] d IH]; simpl; intros Hnd Hin; [contradiction|].
  inversion Hnd as [|? ? Hk' Hnd']; subst.
  destruct Hin as [Heq | Hin].
  - inversion Heq; subst. now rewrite String.eqb_refl.
  - destruct (String.eqb k' k) eqn:E.
    + apply String.eqb_eq in E. subst k'. exfalso. apply Hk'.
      apply in_map_iff. exists (k, v). now split.
    + now apply IH.
Qed.

Lemma substring_hit_decide (keywords : list string) (category : string) :
  substring_hit keywords category <->
  match dict_get hazard_categories category with
  | Some cat_keywords => Demo.category_hit (map lower keywords) cat_keywords
  | None => false
  end = true.
Proof.
  destruct (dict_get hazard_categories category) as [cks|] eqn:Hget.
  - symmetry. now apply demo_category_hit_iff.
  - split; [|discriminate]. intros (cks & ? & ? & Hget' & _). congruence.
Qed.

Lemma member_hit_decide (keywords : list string) (category : string) :
  member_hit keywords category <->
  match dict_get hazard_categories category with
  | Some cat_keywords => any (fun kw => list_in kw cat_keywords) keywords
  | None => false
  end = true.
Proof.
  destruct (dict_get hazard_categories category) as [cks|] eqn:Hget.
  - symmetry. now apply live_category_hit_iff.
  - split; [|discriminate]. intros (cks & ? & Hget' & _). congruence.
Qed.

(** The demo program returns the first category, in its priority order, that
    is hit on substring containment. *)
Lemma demo_categorize_first_hit (keywords : list string) (category : string) :
  first_hit (substring_hit keywords) Demo.category_priority category ->
  Demo.categorize_hazard keywords = Some category.
Proof.
  intros (before & after & Hsplit & Hhit & Hnone).
  unfold Demo.categorize_hazard. pose proof priority_keys as Hkeys.
  rewrite Hsplit in *. now rewrite demo_scan_first_hit.
Qed.

(** The live program returns the first category, in the insertion order of
    [hazard_categories], that is hit on membership. *)
Lemma live_categorize_first_hit (keywords : list string) (category : string) :
  first_hit (member_hit keywords) (map fst hazard_categories) category ->
  Live.categorize_hazard keywords = category.
Proof.
  intros (before & after & Hsplit & Hhit & Hnone).
  pose proof items_NoDup as Hnd.
  pose proof (dict_get_In hazard_categories) as Hget. specialize (fun k v => Hget k v Hnd).
  unfold Live.categorize_hazard.
  assert (Hdec : forall c, member_hit keywords c <->
            match dict_get hazard_categories c with
            | Some cks => any (fun kw => list_in kw cks) keywords
            | None => false
            end = true) by (intros c; apply member_hit_decide).
  revert Hsplit Hget Hdec. generalize hazard_categories as items. intros items Hsplit Hget Hdec.
  apply map_eq_app in Hsplit as (d1 & d2' & -> & Hd1 & Hd2).
  destruct d2' as [|[c cks] d2]; [discriminate|]. simpl in Hd2. inversion Hd2; subst c.
  rewrite live_scan_first_hit; [reflexivity | |].
  - intros c0 cks0 Hin. apply not_true_is_false. intros Htrue.
    apply (Hnone c0).
    + rewrite <- Hd1. apply in_map_iff. exists (c0, cks0). now split.
    + apply Hdec. rewrite (Hget c0 cks0); [exact Htrue|].
      apply in_or_app. now left.
  - apply Hdec in Hhit. rewrite (Hget category cks) in Hhit; [exact Hhit|].
    apply in_or_app. right. now left.
Qed.

(** A matched-keyword sequence on which the two programs differ: the demo
    program's priority order reaches [pollution] first. *)
Lemma priority_first_hit_example :
  first_hit (substring_hit ["sea level rise"; "oil spill"])
    ["tsunami"; "storms"; "flooding"; "pollution"; "erosion"; "currents"; "climate"; "general"]
    "pollution".
Proof.
  exists ["tsunami"; "storms"; "flooding"], ["erosion"; "currents"; "climate"; "general"].
  split; [reflexivity|]. split.
  - apply substring_hit_decide. reflexivity.
  - intros c Hc. rewrite substring_hit_decide.
    simpl in Hc. destruct Hc as [<-|[<-|[<-|[]]]]; vm_compute; discriminate.
Qed.

(** On the same sequence the insertion order reaches [erosion] first. *)
Lemma insertion_first_hit_example :
  first_hit (member_hit ["sea level rise"; "oil spill"]) (map fst hazard_categories) "erosion".
Proof.
  exists ["tsunami"; "storms"; "flooding"], ["pollution"; "currents"; "climate"; "general"].
  split; [reflexivity|]. split.
  - apply member_hit_decide. reflexivity.
  - intros c Hc. rewrite member_hit_decide.
    simpl in Hc. destruct Hc as [<-|[<-|[<-|[]]]]; vm_compute; discriminate.
Qed.

(** C2, as the two programs implement it.  The demo program
    ([web_scraper.py]) scans the categories in the priority order tsunami,
    storms, flooding, pollution, erosion, currents, climate, general, counts a
    category as hit when some matched keyword contains one of its keywords as
    a case-insensitive substring, and returns the first category with a hit.
    The live program ([web_scarper.py]) scans in the insertion order of its
    category table (erosion before pollution), counts a category as hit when
    some matched keyword is equal to one of its keywords, and returns the
    first category with a hit. *)
Theorem categorize_hazard_first_hit (keywords : list string) (category : string) :
  Demo.category_priority
  = ["tsunami"; "storms"; "flooding"; "pollution"; "erosion"; "currents"; "climate"; "general"]
  /\ map fst hazard_categories
     = ["tsunami"; "storms"; "flooding"; "erosion"; "pollution"; "currents"; "climate"; "general"]
  /\ (first_hit (substring_hit keywords) Demo.category_priority category ->
      Demo.categorize_hazard keywords = Some category)
  /\ (first_hit (member_hit keywords) (map fst hazard_categories) category ->
      Live.categorize_hazard keywords = category).
Proof.
  split; [reflexivity|]. split; [reflexivity|]. split.
  - apply demo_categorize_first_hit.
  - apply live_categorize_first_hit.
Qed.

Lemma categorize_hazard_first_hit_witness :
  Demo.categorize_hazard ["sea level rise"; "oil spill"] = Some "pollution"
  /\ Live.categorize_hazard ["sea level rise"; "oil spill"] = "erosion".
Proof.
  split.
  - apply (categorize_hazard_first_hit ["sea level rise"; "oil spill"] "pollution").
    apply priority_first_hit_example.
  - apply (categorize_hazard_first_hit ["sea level rise"; "oil spill"] "erosion").
    apply insertion_first_hit_example.
Defined.

(** C2 as stated fails on the live program: for the non-empty sequence
    [sea level rise, oil spill] the first category hit in the stated priority
    order is [pollution], and the live program returns [erosion]. *)
Lemma categorize_hazard_live_counterexample :
  ~ (forall keywords category,
       keywords <> [] ->
       first_hit (substring_hit keywords)
         ["tsunami"; "storms"; "flooding"; "pollution"; "erosion"; "currents"; "climate"; "general"]
         category ->
       Live.categorize_hazard keywords = category).
Proof.
  intros Hclaim.
  specialize (Hclaim ["sea level rise"; "oil spill"] "pollution").
  assert (H : Live.categorize_hazard ["sea level rise"; "oil spill"] = "pollution")
    by (apply Hclaim; [discriminate | apply priority_first_hit_example]).
  vm_compute in H. discriminate.
Qed.

End CategorizerContract.

(** ** The sentiment scorer *)

Section Scorer.

Local Open Scope Q_scope.

Lemma Qltb_lt (x y : Q) : Qltb x y = true <-> x < y.
Proof.
  unfold Qltb. rewrite negb_true_iff, <- not_true_iff_false, Qle_bool_iff.
  split; [apply Qnot_le_lt | apply Qlt_not_le].
Qed.

Lemma Qltb_ge (x y : Q) : Qltb x y = false <-> y <= x.
Proof.
  unfold Qltb. rewrite negb_false_iff. apply Qle_bool_iff.
Qed.

(** The clamp [max(-1.0, min(1.0, x))]. *)
Lemma clamp_bounds (x : Q) : - (1) <= Qmax (- (1)) (Qmin 1 x) /\ Qmax (- (1)) (Qmin 1 x) <= 1.
Proof.
  split; [apply Q.le_max_l|].
  apply Q.max_lub; [discriminate | apply Q.le_min_l].
Qed.

(** The label chosen by the two comparisons agrees with the score. *)
Lemma label_choice_coherent (threshold score confidence : Q) :
  0 <= threshold ->
  label_coherent threshold
    (score,
     if Qltb threshold score then "positive"
     else if Qltb score (- threshold) then "negative" else "neutral",
     confidence).
Proof.
  intros Hthr. unfold label_coherent.
  destruct (Qltb threshold score) eqn:Hpos;
    [ apply Qltb_lt in Hpos
    | apply Qltb_ge in Hpos; destruct (Qltb score (- threshold)) eqn:Hneg;
      [ apply Qltb_lt in Hneg | apply Qltb_ge in Hneg ] ];
    repeat split; intros;
    try discriminate; try reflexivity; try assumption; try lra; try tauto.
Qed.

Lemma demo_score_coherent (text : string) (polarity : Q) :
  label_coherent (15 # 100) (Demo.score_polarity text polarity).
Proof. unfold Demo.score_polarity. apply label_choice_coherent. discriminate. Qed.

Lemma live_score_coherent (text : string) (polarity : Q) :
  label_coherent (1 # 10) (Live.score_polarity text polarity).
Proof. unfold Live.score_polarity. apply label_choice_coherent. discriminate. Qed.

Lemma demo_fallback_coherent : label_coherent (15 # 100) Demo.fallback_sentiment.
Proof.
  unfold label_coherent, Demo.fallback_sentiment.
  repeat split; intros;
    try discriminate; try reflexivity; try assumption; try lra; try tauto.
Qed.

Lemma demo_score_confident (text : string) (polarity : Q) :
  confident (Demo.score_polarity text polarity).
Proof.
  unfold Demo.score_polarity, confident. apply Q.min_glb; [|discriminate].
  pose proof (Qabs_nonneg
    (Qmax (- (1)) (Qmin 1 (polarity +
       (inject_Z (Z.of_nat (count_if (fun word => str_in word (lower text)) Demo.disaster_positive)) * (2 # 10)
        - inject_Z (Z.of_nat (count_if (fun word => str_in word (lower text)) Demo.disaster_negative)) * (3 # 10)))))).
  lra.
Qed.

Lemma demo_score_in_bounds (text : string) (polarity : Q) :
  in_bounds (Demo.score_polarity text polarity).
Proof.
  pose proof (demo_score_confident text polarity) as Hc.
  unfold Demo.score_polarity, in_bounds, confident in *.
  split; [apply clamp_bounds|]. split; [apply clamp_bounds|].
  split; [lra | apply Q.le_min_r].
Qed.

Lemma live_score_in_bounds (text : string) (polarity : Q) :
  in_bounds (Live.score_polarity text polarity).
Proof.
  unfold Live.score_polarity, in_bounds.
  split; [apply clamp_bounds|]. split; [apply clamp_bounds|].
  split; [|apply Q.le_min_r].
  apply Q.min_glb; [|discriminate].
  apply Qmult_le_0_compat; [apply Qabs_nonneg | discriminate].
Qed.

Lemma demo_fallback_in_bounds : in_bounds Demo.fallback_sentiment.
Proof. unfold in_bounds, Demo.fallback_sentiment. repeat split; discriminate. Qed.

Lemma demo_fallback_confident : confident Demo.fallback_sentiment.
Proof. unfold confident, Demo.fallback_sentiment. discriminate. Qed.

End Scorer.

(** ** Invariants of the sentiment cache *)

Section CacheInvariant.

(** A property of result triples that the computed triples have. *)
Variable P : sentiment -> Prop.

Variable polarity_of : string -> option Q.

Section DemoInvariant.

Hypothesis P_score : forall text polarity, P (Demo.score_polarity text polarity).
Hypothesis P_fallback : P Demo.fallback_sentiment.

Lemma demo_analyze_invariant (text : string) (cache : gmap string sentiment) :
  map_Forall (fun _ s => P s) cache ->
  P (fst (Demo.analyze_sentiment polarity_of text cache))
  /\ map_Forall (fun _ s => P s) (snd (Demo.analyze_sentiment polarity_of text cache)).
Proof.
  intros Hinv. unfold Demo.analyze_sentiment.
  destruct (cache !! strip (lower text)) as [cached|] eqn:Hlook; simpl.
  - split; [exact (Hinv _ _ Hlook) | exact Hinv].
  - destruct (polarity_of text) as [polarity|]; simpl.
    + split; [apply P_score | apply map_Forall_insert_2; [apply P_score | exact Hinv]].
    + split; [exact P_fallback | exact Hinv].
Qed.

Lemma demo_calls_invariant (texts : list string) (cache : gmap string sentiment) :
  map_Forall (fun _ s => P s) cache ->
  map_Forall (fun _ s => P s) (fold_left (demo_call polarity_of) texts cache).
Proof.
  revert cache. induction texts as [|text texts IH]; intros cache Hinv; simpl.
  - exact Hinv.
  - apply IH. unfold demo_call. now apply demo_analyze_invariant.
Qed.

Lemma demo_cache_after_invariant (texts : list string) :
  map_Forall (fun _ s => P s) (demo_cache_after polarity_of texts).
Proof. apply demo_calls_invariant, map_Forall_empty. Qed.

Lemma demo_tweet_sentiment_eq (draws : nat -> Demo.DemoDraw) (i : nat)
    (data : DemoEntry) (s : sentiment) :
  demo_tweet_sentiment (Demo.demo_tweet draws i data s) = s.
Proof. destruct s as [[score label] conf]. reflexivity. Qed.

Lemma demo_loop_invariant (draws : nat -> Demo.DemoDraw) (entries : list DemoEntry)
    (i : nat) (tweets : list Demo.OceanHazardTweet) (cache : gmap string sentiment) :
  map_Forall (fun _ s => P s) cache ->
  Forall (fun t => P (demo_tweet_sentiment t)) tweets ->
  Forall (fun t => P (demo_tweet_sentiment t))
    (fst (Demo.demo_loop polarity_of draws i entries tweets cache))
  /\ map_Forall (fun _ s => P s)
       (snd (Demo.demo_loop polarity_of draws i entries tweets cache)).
Proof.
  revert i tweets cache.
  induction entries as [|data entries IH]; intros i tweets cache Hinv Htweets; simpl.
  - now split.
  - destruct (demo_analyze_invariant (data_content data) cache Hinv) as [Hs Hinv'].
    destruct (Demo.analyze_sentiment polarity_of (data_content data) cache) as [s cache'].
    simpl in Hs, Hinv'. apply IH; [exact Hinv'|].
    apply Forall_app. split; [exact Htweets|].
    constructor; [|constructor]. now rewrite demo_tweet_sentiment_eq.
Qed.

Lemma demo_tweets_invariant (draws : nat -> Demo.DemoDraw) (cache : gmap string sentiment) :
  map_Forall (fun _ s => P s) cache ->
  Forall (fun t => P (demo_tweet_sentiment t))
    (fst (Demo.get_demo_tweets polarity_of draws cache)).
Proof. intros Hinv. now apply demo_loop_invariant. Qed.

End DemoInvariant.

Section LiveInvariant.

Variable scrape_multiple_sources : string -> nat -> option (list Live.RawTweet).
Variable hash : string -> Z.
Variable draws : nat -> Live.FallbackDraw.

Hypothesis P_score : forall text polarity, P (Live.score_polarity text polarity).

Lemma live_analyze_invariant (text : string) (cache cache' : gmap string sentiment)
    (s : sentiment) :
  map_Forall (fun _ s => P s) cache ->
  Live.analyze_sentiment polarity_of text cache = Some (s, cache') ->
  P s /\ map_Forall (fun _ s => P s) cache'.
Proof.
  intros Hinv. unfold Live.analyze_sentiment.
  destruct (cache !! strip (lower text)) as [cached|] eqn:Hlook.
  - intros [= <- <-]. split; [exact (Hinv _ _ Hlook) | exact Hinv].
  - destruct (polarity_of text) as [polarity|]; simpl; [|discriminate].
    intros [= <- <-].
    split; [apply P_score | apply map_Forall_insert_2; [apply P_score | exact Hinv]].
Qed.

Lemma live_call_invariant (text : string) (cache : gmap string sentiment) :
  map_Forall (fun _ s => P s) cache ->
  map_Forall (fun _ s => P s) (live_call polarity_of cache text).
Proof.
  intros Hinv. unfold live_call.
  destruct (Live.analyze_sentiment polarity_of text cache) as [[s cache']|] eqn:E;
    [|exact Hinv].
  now destruct (live_analyze_invariant _ _ _ _ Hinv E).
Qed.

Lemma live_cache_after_invariant (texts : list string) :
  map_Forall (fun _ s => P s) (live_cache_after polarity_of texts).
Proof.
  unfold live_cache_after.
  assert (H : forall cache, map_Forall (fun _ s => P s) cache ->
    map_Forall (fun _ s => P s) (fold_left (live_call polarity_of) texts cache)).
  { induction texts as [|text texts IH]; intros cache Hinv; simpl; [exact Hinv|].
    apply IH. now apply live_call_invariant. }
  apply H, map_Forall_empty.
Qed.

Lemma live_tweet_sentiment_eq (raw : Live.RawTweet) (kws : list string)
    (s : sentiment) (category : string) :
  live_tweet_sentiment (Live.live_tweet raw kws s category) = s.
Proof. destruct s as [[score label] conf]. reflexivity. Qed.

Lemma fallback_tweet_sentiment_eq (i : nat) (data : DemoEntry) (s : sentiment) :
  live_tweet_sentiment (Live.fallback_tweet draws i data s) = s.
Proof. destruct s as [[score label] conf]. reflexivity. Qed.

End LiveInvariant.

End CacheInvariant.

(** ** Invariants of the tweets the live program builds *)

Section LiveLoops.

Variable P : sentiment -> Prop.
Variable Pt : Live.OceanHazardTweet -> Prop.

Variable polarity_of : string -> option Q.
Variable scrape_multiple_sources : string -> nat -> option (list Live.RawTweet).
Variable hash : string -> Z.
Variable draws : nat -> Live.FallbackDraw.

Hypothesis P_score : forall text polarity, P (Live.score_polarity text polarity).

(** [Pt] holds of a tweet built from a raw tweet that matched a keyword. *)
Hypothesis Pt_live : forall raw s,
  P s ->
  Live.find_matching_keywords (Live.raw_content raw) <> [] ->
  Pt (Live.live_tweet raw (Live.find_matching_keywords (Live.raw_content raw)) s
        (Live.categorize_hazard (Live.find_matching_keywords (Live.raw_content raw)))).

Lemma raw_tweets_loop_invariant (raw_tweets : list Live.RawTweet)
    (all_tweets : list Live.OceanHazardTweet) (cache : gmap string sentiment) :
  map_Forall (fun _ s => P s) cache ->
  Forall Pt all_tweets ->
  Forall Pt (fst (Live.raw_tweets_loop polarity_of raw_tweets all_tweets cache))
  /\ map_Forall (fun _ s => P s)
       (snd (Live.raw_tweets_loop polarity_of raw_tweets all_tweets cache)).
Proof.
  revert all_tweets cache.
  induction raw_tweets as [|raw rest IH]; intros all_tweets cache Hinv Hall; simpl.
  - now split.
  - pose proof (Pt_live raw) as Hbuild.
    destruct (Live.find_matching_keywords (Live.raw_content raw)) as [|kw kws] eqn:Hkw.
    + now apply IH.
    + destruct (Live.analyze_sentiment polarity_of (Live.raw_content raw) cache)
        as [[s cache']|] eqn:E.
      * destruct (live_analyze_invariant P polarity_of P_score _ _ _ _ Hinv E) as [Hs Hinv'].
        apply IH; [exact Hinv'|].
        apply Forall_app. split; [exact Hall|].
        constructor; [|constructor]. now apply Hbuild.
      * now split.
Qed.

Lemma keywords_loop_invariant (n : nat) (priority_keywords : list string)
    (all_tweets : list Live.OceanHazardTweet) (cache : gmap string sentiment) :
  map_Forall (fun _ s => P s) cache ->
  Forall Pt all_tweets ->
  Forall Pt
    (fst (Live.keywords_loop polarity_of scrape_multiple_sources n priority_keywords
            all_tweets cache))
  /\ map_Forall (fun _ s => P s)
       (snd (Live.keywords_loop polarity_of scrape_multiple_sources n priority_keywords
               all_tweets cache)).
Proof.
  revert all_tweets cache.
  induction priority_keywords as [|keyword rest IH]; intros all_tweets cache Hinv Hall; simpl.
  - now split.
  - destruct (scrape_multiple_sources keyword n) as [raw_tweets|]; [|now apply IH].
    destruct (raw_tweets_loop_invariant raw_tweets all_tweets cache Hinv Hall) as [Hall' Hinv'].
    destruct (Live.raw_tweets_loop polarity_of raw_tweets all_tweets cache) as [all' cache'].
    now apply IH.
Qed.

Lemma dict_set_Forall {V : Type} (R : V -> Prop) (k : Z) (v : V) (d : list (Z * V)) :
  R v -> Forall (fun e => R (snd e)) d -> Forall (fun e => R (snd e)) (Live.dict_set k v d).
Proof.
  intros Hv. induction d as [|[k' v'] d IH]; intros Hd; simpl.
  - now repeat constructor.
  - inversion Hd; subst. destruct (k' =? k)%Z; constructor; auto.
Qed.

Lemma unique_by_content_Forall (all_tweets : list Live.OceanHazardTweet) :
  Forall Pt all_tweets -> Forall Pt (Live.unique_by_content hash all_tweets).
Proof.
  intros Hall. unfold Live.unique_by_content.
  assert (H : forall d, Forall (fun e => Pt (snd e)) d ->
            Forall (fun e => Pt (snd e))
              (fold_left (fun d t => Live.dict_set (hash (Live.content t)) t d) all_tweets d)).
  { induction Hall as [|t ts Ht Hts IH]; intros d Hd; simpl; [exact Hd|].
    apply IH. now apply dict_set_Forall. }
  specialize (H [] (List.Forall_nil _)). apply List.Forall_map. exact H.
Qed.

Lemma search_ocean_hazards_invariant (n : nat) (cache : gmap string sentiment) :
  map_Forall (fun _ s => P s) cache ->
  Forall Pt
    (fst (Live.search_ocean_hazards polarity_of scrape_multiple_sources hash n cache))
  /\ map_Forall (fun _ s => P s)
       (snd (Live.search_ocean_hazards polarity_of scrape_multiple_sources hash n cache)).
Proof.
  intros Hinv. unfold Live.search_ocean_hazards.
  destruct (keywords_loop_invariant n (firstn 8 KEYWORDS) [] cache Hinv (List.Forall_nil _))
    as [Hall Hinv'].
  destruct (Live.keywords_loop polarity_of scrape_multiple_sources n (firstn 8 KEYWORDS) [] cache)
    as [all_tweets cache'].
  split; [now apply unique_by_content_Forall | exact Hinv'].
Qed.

(** [Pt] holds of a tweet built from the fallback table. *)
Hypothesis Pt_fallback : forall i data s,
  P s -> In data Live.demo_data -> Pt (Live.fallback_tweet draws i data s).

Lemma fallback_loop_invariant (entries : list DemoEntry) (i : nat)
    (tweets tweets' : list Live.OceanHazardTweet) (cache cache' : gmap string sentiment) :
  (forall data, In data entries -> In data Live.demo_data) ->
  map_Forall (fun _ s => P s) cache ->
  Forall Pt tweets ->
  Live.fallback_loop polarity_of draws i entries tweets cache = Some (tweets', cache') ->
  Forall Pt tweets' /\ map_Forall (fun _ s => P s) cache'.
Proof.
  revert i tweets cache.
  induction entries as [|data entries IH]; intros i tweets cache Hsub Hinv Htweets; simpl.
  - intros [= <- <-]. now split.
  - destruct (Live.analyze_sentiment polarity_of (data_content data) cache)
      as [[s cache1]|] eqn:E; simpl; [|discriminate].
    destruct (live_analyze_invariant P polarity_of P_score _ _ _ _ Hinv E) as [Hs Hinv1].
    apply IH; [intros d Hd; apply Hsub; now right | exact Hinv1 |].
    apply Forall_app. split; [exact Htweets|].
    constructor; [|constructor]. apply Pt_fallback; [exact Hs | apply Hsub; now left].
Qed.

Lemma fallback_tweets_invariant (tweets : list Live.OceanHazardTweet)
    (cache cache' : gmap string sentiment) :
  map_Forall (fun _ s => P s) cache ->
  Live.get_fallback_tech_demo_tweets polarity_of draws cache = Some (tweets, cache') ->
  Forall Pt tweets /\ map_Forall (fun _ s => P s) cache'.
Proof.
  intros Hinv. unfold Live.get_fallback_tech_demo_tweets.
  now apply fallback_loop_invariant.
Qed.

End LiveLoops.

(** ** The caches the pipelines leave *)

(** The pipelines change the cache only through [analyze_sentiment], so the
    cache they leave is again the cache after a sequence of calls. *)

Section PipelineCaches.

Variable polarity_of : string -> option Q.

Lemma demo_loop_cache (draws : nat -> Demo.DemoDraw) (entries : list DemoEntry)
    (i : nat) (tweets : list Demo.OceanHazardTweet) (cache : gmap string sentiment) :
  snd (Demo.demo_loop polarity_of draws i entries tweets cache)
  = fold_left (demo_call polarity_of) (map data_content entries) cache.
Proof.
  revert i tweets cache. induction entries as [|data entries IH]; intros i tweets cache; simpl.
  - reflexivity.
  - unfold demo_call at 2.
    destruct (Demo.analyze_sentiment polarity_of (data_content data) cache) as [s cache'].
    now rewrite IH.
Qed.

Lemma demo_pipeline_cache (draws : nat -> Demo.DemoDraw) (texts : list string) :
  snd (Demo.get_demo_tweets polarity_of draws (demo_cache_after polarity_of texts))
  = demo_cache_after polarity_of (texts ++ map data_content Demo.demo_data).
Proof.
  unfold Demo.get_demo_tweets, demo_cache_after.
  now rewrite demo_loop_cache, fold_left_app.
Qed.

Lemma raw_tweets_loop_cache (raw_tweets : list Live.RawTweet)
    (all_tweets : list Live.OceanHazardTweet) (cache : gmap string sentiment) :
  exists texts,
    snd (Live.raw_tweets_loop polarity_of raw_tweets all_tweets cache)
    = fold_left (live_call polarity_of) texts cache.
Proof.
  revert all_tweets cache.
  induction raw_tweets as [|raw rest IH]; intros all_tweets cache; simpl.
  - now exists [].
  - destruct (Live.find_matching_keywords (Live.raw_content raw)) as [|kw kws]; [apply IH|].
    destruct (Live.analyze_sentiment polarity_of (Live.raw_content raw) cache)
      as [[s cache']|] eqn:E.
    + destruct (IH (all_tweets ++ [Live.live_tweet raw (kw :: kws) s
                                     (Live.categorize_hazard (kw :: kws))]) cache')
        as [texts Htexts].
      exists (Live.raw_content raw :: texts). simpl. unfold live_call at 2.
      now rewrite E.
    + now exists [].
Qed.

Lemma keywords_loop_cache
    (scrape_multiple_sources : string -> nat -> option (list Live.RawTweet))
    (n : nat) (priority_keywords : list string)
    (all_tweets : list Live.OceanHazardTweet) (cache : gmap string sentiment) :
  exists texts,
    snd (Live.keywords_loop polarity_of scrape_multiple_sources n priority_keywords
           all_tweets cache)
    = fold_left (live_call polarity_of) texts cache.
Proof.
  revert all_tweets cache.
  induction priority_keywords as [|keyword rest IH]; intros all_tweets cache; simpl.
  - now exists [].
  - destruct (scrape_multiple_sources keyword n) as [raw_tweets|]; [|apply IH].
    destruct (raw_tweets_loop_cache raw_tweets all_tweets cache) as [texts1 H1].
    destruct (Live.raw_tweets_loop polarity_of raw_tweets all_tweets cache) as [all' cache'].
    simpl in H1. destruct (IH all' cache') as [texts2 H2].
    exists (texts1 ++ texts2). now rewrite fold_left_app, <- H1.
Qed.

Lemma live_pipeline_cache
    (scrape_multiple_sources : string -> nat -> option (list Live.RawTweet))
    (hash : string -> Z) (n : nat) (texts : list string) :
  exists texts',
    snd (Live.search_ocean_hazards polarity_of scrape_multiple_sources hash n
           (live_cache_after polarity_of texts))
    = live_cache_after polarity_of (texts ++ texts').
Proof.
  unfold Live.search_ocean_hazards.
  destruct (keywords_loop_cache scrape_multiple_sources n (firstn 8 KEYWORDS) []
              (live_cache_after polarity_of texts)) as [texts' H].
  destruct (Live.keywords_loop polarity_of scrape_multiple_sources n (firstn 8 KEYWORDS) []
              (live_cache_after polarity_of texts)) as [all_tweets cache'].
  exists texts'. simpl in *. rewrite H. unfold live_cache_after.
  now rewrite fold_left_app.
Qed.

Lemma fallback_loop_cache (draws : nat -> Live.FallbackDraw) (entries : list DemoEntry)
    (i : nat) (tweets tweets' : list Live.OceanHazardTweet)
    (cache cache' : gmap string sentiment) :
  Live.fallback_loop polarity_of draws i entries tweets cache = Some (tweets', cache') ->
  cache' = fold_left (live_call polarity_of) (map data_content entries) cache.
Proof.
  revert i tweets cache. induction entries as [|data entries IH]; intros i tweets cache; simpl.
  - now intros [= _ <-].
  - unfold live_call at 2.
    destruct (Live.analyze_sentiment polarity_of (data_content data) cache)
      as [[s cache1]|]; simpl; [apply IH | discriminate].
Qed.

Lemma fallback_pipeline_cache (draws : nat -> Live.FallbackDraw) (texts : list string)
    (tweets : list Live.OceanHazardTweet) (cache : gmap string sentiment) :
  Live.get_fallback_tech_demo_tweets polarity_of draws (live_cache_after polarity_of texts)
  = Some (tweets, cache) ->
  cache = live_cache_after polarity_of (texts ++ map data_content Live.demo_data).
Proof.
  intros E. apply fallback_loop_cache in E. rewrite E.
  unfold live_cache_after. now rewrite fold_left_app.
Qed.

End PipelineCaches.

(** ** What every result of the scorer satisfies *)

Section ScorerResults.

Local Open Scope Q_scope.

Variable polarity_of : string -> option Q.

(** A property of the computed triples and of the fallback triple holds of
    every triple the demo program returns and of every tweet it builds, after
    any sequence of earlier calls. *)
Lemma demo_results_satisfy (P : sentiment -> Prop) (draws : nat -> Demo.DemoDraw)
    (texts : list string) (text : string) :
  (forall text polarity, P (Demo.score_polarity text polarity)) ->
  P Demo.fallback_sentiment ->
  P (fst (Demo.analyze_sentiment polarity_of text (demo_cache_after polarity_of texts)))
  /\ Forall (fun t => P (demo_tweet_sentiment t))
       (fst (Demo.get_demo_tweets polarity_of draws (demo_cache_after polarity_of texts))).
Proof.
  intros Hscore Hfallback.
  pose proof (demo_cache_after_invariant P polarity_of Hscore Hfallback texts) as Hinv.
  split.
  - now apply demo_analyze_invariant.
  - now apply demo_tweets_invariant.
Qed.

(** The same for the live program, whose scorer has no fallback triple. *)
Lemma live_results_satisfy (P : sentiment -> Prop)
    (scrape_multiple_sources : string -> nat -> option (list Live.RawTweet))
    (hash : string -> Z) (draws : nat -> Live.FallbackDraw)
    (texts : list string) (text : string) (max_tweets_per_keyword : nat) :
  (forall text polarity, P (Live.score_polarity text polarity)) ->
  (forall s cache,
      Live.analyze_sentiment polarity_of text (live_cache_after polarity_of texts)
      = Some (s, cache) -> P s)
  /\ Forall (fun t => P (live_tweet_sentiment t))
       (fst (Live.search_ocean_hazards polarity_of scrape_multiple_sources hash
               max_tweets_per_keyword (live_cache_after polarity_of texts)))
  /\ (forall tweets cache,
        Live.get_fallback_tech_demo_tweets polarity_of draws
          (live_cache_after polarity_of texts) = Some (tweets, cache) ->
        Forall (fun t => P (live_tweet_sentiment t)) tweets).
Proof.
  intros Hscore.
  pose proof (live_cache_after_invariant P polarity_of Hscore texts) as Hinv.
  split; [|split].
  - intros s cache E. now destruct (live_analyze_invariant P polarity_of Hscore _ _ _ _ Hinv E).
  - apply (search_ocean_hazards_invariant P (fun t => P (live_tweet_sentiment t))
             polarity_of scrape_multiple_sources hash Hscore); [|exact Hinv].
    intros raw s Hs _. now rewrite live_tweet_sentiment_eq.
  - intros tweets cache E.
    apply (fallback_tweets_invariant P (fun t => P (live_tweet_sentiment t))
             polarity_of draws Hscore) with (cache := live_cache_after polarity_of texts)
                                            (cache' := cache); [|exact Hinv|exact E].
    intros i data s Hs _. now rewrite fallback_tweet_sentiment_eq.
Qed.

(** C4. After any sequence of calls, the triple returned by the scorer and
    the triple carried by every tweet the programs build have a label that is
    positive exactly when the score is above the threshold, negative exactly
    when it is below the opposite threshold, and neutral otherwise; the
    threshold is 0.15 in the demo program and 0.1 in the live program. *)
Theorem label_score_coherence
    (demo_draws : nat -> Demo.DemoDraw)
    (scrape_multiple_sources : string -> nat -> option (list Live.RawTweet))
    (hash : string -> Z) (fallback_draws : nat -> Live.FallbackDraw)
    (texts : list string) (text : string) (max_tweets_per_keyword : nat) :
  (label_coherent (15 # 100)
     (fst (Demo.analyze_sentiment polarity_of text (demo_cache_after polarity_of texts)))
   /\ Forall (fun t => label_coherent (15 # 100) (demo_tweet_sentiment t))
        (fst (Demo.get_demo_tweets polarity_of demo_draws (demo_cache_after polarity_of texts))))
  /\ (forall s cache,
        Live.analyze_sentiment polarity_of text (live_cache_after polarity_of texts)
        = Some (s, cache) -> label_coherent (1 # 10) s)
  /\ Forall (fun t => label_coherent (1 # 10) (live_tweet_sentiment t))
       (fst (Live.search_ocean_hazards polarity_of scrape_multiple_sources hash
               max_tweets_per_keyword (live_cache_after polarity_of texts)))
  /\ (forall tweets cache,
        Live.get_fallback_tech_demo_tweets polarity_of fallback_draws
          (live_cache_after polarity_of texts) = Some (tweets, cache) ->
        Forall (fun t => label_coherent (1 # 10) (live_tweet_sentiment t)) tweets).
Proof.
  split.
  - apply demo_results_satisfy; [apply demo_score_coherent | apply demo_fallback_coherent].
  - apply live_results_satisfy. apply live_score_coherent.
Qed.

(** C6. After any sequence of calls, every triple the scorer returns, from
    the computation, from the cache or from the failure fallback, and every
    triple carried by a tweet, has its polarity in [-1, 1] and its confidence
    in [0, 1]. *)
Theorem polarity_and_confidence_bounds
    (demo_draws : nat -> Demo.DemoDraw)
    (scrape_multiple_sources : string -> nat -> option (list Live.RawTweet))
    (hash : string -> Z) (fallback_draws : nat -> Live.FallbackDraw)
    (texts : list string) (text : string) (max_tweets_per_keyword : nat) :
  (in_bounds
     (fst (Demo.analyze_sentiment polarity_of text (demo_cache_after polarity_of texts)))
   /\ Forall (fun t => in_bounds (demo_tweet_sentiment t))
        (fst (Demo.get_demo_tweets polarity_of demo_draws (demo_cache_after polarity_of texts))))
  /\ (forall s cache,
        Live.analyze_sentiment polarity_of text (live_cache_after polarity_of texts)
        = Some (s, cache) -> in_bounds s)
  /\ Forall (fun t => in_bounds (live_tweet_sentiment t))
       (fst (Live.search_ocean_hazards polarity_of scrape_multiple_sources hash
               max_tweets_per_keyword (live_cache_after polarity_of texts)))
  /\ (forall tweets cache,
        Live.get_fallback_tech_demo_tweets polarity_of fallback_draws
          (live_cache_after polarity_of texts) = Some (tweets, cache) ->
        Forall (fun t => in_bounds (live_tweet_sentiment t)) tweets).
Proof.
  split.
  - apply demo_results_satisfy; [apply demo_score_in_bounds | apply demo_fallback_in_bounds].
  - apply live_results_satisfy. apply live_score_in_bounds.
Qed.

(** A triple is produced by one of the two paths of the demo scorer. *)
Lemma demo_cache_provenance (texts : list string) :
  map_Forall
    (fun _ s => s = Demo.fallback_sentiment
                \/ exists text polarity, s = Demo.score_polarity text polarity)
    (demo_cache_after polarity_of texts).
Proof.
  apply demo_cache_after_invariant; [|now left].
  intros text polarity. right. now exists text, polarity.
Qed.

(** C10. In the demo program the confidence of every returned triple is at
    least 0.2, hence never zero: the computed confidence is
    [min(|polarity| + 0.2, 1.0)], the fallback confidence is 0.6, and every
    cached triple was produced by one of these two paths. *)
Theorem demo_confidence_at_least_fifth (texts : list string) (text : string) :
  let result :=
    fst (Demo.analyze_sentiment polarity_of text (demo_cache_after polarity_of texts)) in
  (2 # 10 <= snd result /\ ~ snd result == 0)
  /\ (forall text polarity,
        snd (Demo.score_polarity text polarity)
        = Qmin (Qabs (fst (fst (Demo.score_polarity text polarity))) + (2 # 10)) 1
        /\ 2 # 10 <= snd (Demo.score_polarity text polarity))
  /\ snd Demo.fallback_sentiment = 6 # 10
  /\ map_Forall
       (fun _ s => s = Demo.fallback_sentiment
                   \/ exists text polarity, s = Demo.score_polarity text polarity)
       (demo_cache_after polarity_of texts).
Proof.
  cbv zeta.
  assert (Hc : confident
            (fst (Demo.analyze_sentiment polarity_of text (demo_cache_after polarity_of texts)))).
  { apply (demo_results_satisfy confident (fun _ => Demo.Build_DemoDraw 0 0 0 0 ""));
      [apply demo_score_confident | apply demo_fallback_confident]. }
  destruct (fst (Demo.analyze_sentiment polarity_of text (demo_cache_after polarity_of texts)))
    as [[score label] conf].
  unfold confident in Hc. simpl.
  split; [split; [exact Hc | intros Hz; lra]|].
  split; [|split; [reflexivity | apply demo_cache_provenance]].
  intros text' polarity. split; [reflexivity|].
  exact (demo_score_confident text' polarity).
Qed.

End ScorerResults.

(** ** Estimator failure and the cache-hit law *)

Section FailureAndCache.

Local Open Scope Q_scope.

Lemma demo_loop_length (polarity_of : string -> option Q) (draws : nat -> Demo.DemoDraw)
    (entries : list DemoEntry) (i : nat) (tweets : list Demo.OceanHazardTweet)
    (cache : gmap string sentiment) :
  length (fst (Demo.demo_loop polarity_of draws i entries tweets cache))
  = (length tweets + length entries)%nat.
Proof.
  revert i tweets cache. induction entries as [|data entries IH]; intros i tweets cache; simpl.
  - lia.
  - destruct (Demo.analyze_sentiment polarity_of (data_content data) cache) as [s cache'].
    rewrite IH, length_app. simpl. lia.
Qed.

(** C7, as the two programs implement it.  In the demo program
    ([web_scraper.py]) a call in which the estimator fails returns the fixed
    triple (-0.2, negative, 0.6) and leaves the cache as it was, so the demo
    pipeline builds a tweet for every entry of its table whatever the
    estimator does.  In the live program ([web_scarper.py]) the scorer has no
    handler: the failure leaves [analyze_sentiment] as an exception, which
    the keyword loop of [search_ocean_hazards] catches, keeping the tweets
    built so far and dropping the rest of that keyword's raw tweets. *)
Theorem estimator_failure_handling
    (polarity_of : string -> option Q) (text : string) (cache : gmap string sentiment)
    (Hmiss : cache !! strip (lower text) = None)
    (Hfail : polarity_of text = None) :
  Demo.analyze_sentiment polarity_of text cache = ((- (2 # 10), "negative", 6 # 10), cache)
  /\ (forall draws cache0,
        length (fst (Demo.get_demo_tweets polarity_of draws cache0)) = length Demo.demo_data)
  /\ Live.analyze_sentiment polarity_of text cache = None
  /\ (forall raw rest all_tweets,
        Live.raw_content raw = text ->
        Live.find_matching_keywords text <> [] ->
        Live.raw_tweets_loop polarity_of (raw :: rest) all_tweets cache = (all_tweets, cache)).
Proof.
  split; [|split; [|split]].
  - unfold Demo.analyze_sentiment. now rewrite Hmiss, Hfail.
  - intros draws cache0. unfold Demo.get_demo_tweets. now rewrite demo_loop_length.
  - unfold Live.analyze_sentiment. now rewrite Hmiss, Hfail.
  - intros raw rest all_tweets Hraw Hkw. simpl. rewrite Hraw.
    destruct (Live.find_matching_keywords text); [congruence|].
    unfold Live.analyze_sentiment. now rewrite Hmiss, Hfail.
Qed.

Lemma estimator_failure_handling_witness :
  Demo.analyze_sentiment (fun _ => None) "Tsunami warning" ∅
  = ((- (2 # 10), "negative", 6 # 10), ∅)
  /\ Live.analyze_sentiment (fun _ => None) "Tsunami warning" ∅ = None.
Proof.
  destruct (estimator_failure_handling (fun _ => None) "Tsunami warning" ∅)
    as (Hd & _ & Hl & _); [reflexivity | reflexivity |].
  split; [exact Hd | exact Hl].
Defined.

(** C7 as stated fails on the live program: with an estimator that fails,
    the live scorer returns no triple, and the fallback-demo pipeline that
    calls it ends with the exception. *)
Lemma estimator_failure_live_counterexample :
  Live.analyze_sentiment (fun _ => None) "Tsunami warning" ∅ = None
  /\ Live.get_fallback_tech_demo_tweets (fun _ => None)
       (fun _ => Live.Build_FallbackDraw "" 0 0 0 false) ∅ = None.
Proof. split; reflexivity. Qed.




End FailureAndCache.

(** ** The hazard category of the tweets *)

Section TweetCategory.

Local Open Scope Q_scope.

Lemma demo_loop_tweets (Pt : Demo.OceanHazardTweet -> Prop)
    (polarity_of : string -> option Q) (draws : nat -> Demo.DemoDraw)
    (entries : list DemoEntry) (i : nat) (tweets : list Demo.OceanHazardTweet)
    (cache : gmap string sentiment) :
  (forall i data s, In data entries -> Pt (Demo.demo_tweet draws i data s)) ->
  Forall Pt tweets ->
  Forall Pt (fst (Demo.demo_loop polarity_of draws i entries tweets cache)).
Proof.
  revert i tweets cache.
  induction entries as [|data entries IH]; intros i tweets cache Hbuild Htweets; simpl.
  - exact Htweets.
  - destruct (Demo.analyze_sentiment polarity_of (data_content data) cache) as [s cache'].
    apply IH; [intros j d s' Hd; apply Hbuild; now right|].
    apply Forall_app. split; [exact Htweets|].
    constructor; [|constructor]. apply Hbuild. now left.
Qed.

Lemma demo_tweet_fields (draws : nat -> Demo.DemoDraw) (i : nat) (data : DemoEntry)
    (s : sentiment) :
  Demo.matched_keywords (Demo.demo_tweet draws i data s) = data_keywords data
  /\ Demo.hazard_category (Demo.demo_tweet draws i data s) = data_category data.
Proof. destruct s as [[score label] conf]. now split. Qed.

Lemma live_tweet_fields (raw : Live.RawTweet) (kws : list string) (s : sentiment)
    (category : string) :
  Live.matched_keywords (Live.live_tweet raw kws s category) = kws
  /\ Live.hazard_category (Live.live_tweet raw kws s category) = category.
Proof. destruct s as [[score label] conf]. now split. Qed.

(** The hand-written labels of the demo table are the categories that the
    demo program's categoriser computes from the hand-written keywords. *)
Lemma demo_data_labels :
  Forall (fun data => Demo.categorize_hazard (data_keywords data) = Some (data_category data)
                      /\ In (data_category data) closed_categories)
    Demo.demo_data.
Proof.
  apply List.Forall_forall. intros data Hdata.
  repeat (destruct Hdata as [<-|Hdata];
          [split; [vm_compute; reflexivity | vm_compute; tauto]|]).
  destruct Hdata.
Qed.

Lemma live_scan_items_key (items : list (string * list string)) (keywords : list string)
    (category : string) :
  Live.scan_items items keywords = Some category -> In category (map fst items).
Proof.
  induction items as [|[c cks] items IH]; simpl; [discriminate|].
  destruct (any (fun kw => list_in kw cks) keywords).
  - intros [= ->]. now left.
  - intros H. right. now apply IH.
Qed.

(** The live program's categoriser always answers with a category of the
    closed set. *)
Lemma live_categorize_closed (keywords : list string) :
  In (Live.categorize_hazard keywords) closed_categories.
Proof.
  unfold Live.categorize_hazard.
  destruct (Live.scan_items hazard_categories keywords) as [category|] eqn:E.
  - now apply live_scan_items_key in E.
  - vm_compute. tauto.
Qed.

Lemma fallback_tweet_fields (draws : nat -> Live.FallbackDraw) (i : nat)
    (data : DemoEntry) (s : sentiment) :
  Live.matched_keywords (Live.fallback_tweet draws i data s) = data_keywords data
  /\ Live.hazard_category (Live.fallback_tweet draws i data s) = data_category data.
Proof. destruct s as [[score label] conf]. now split. Qed.

Lemma fallback_data_labels :
  Forall (fun data => data_keywords data = []
                      /\ In (data_category data) ["tech"; "finance"; "eco"])
    Live.demo_data.
Proof. repeat constructor; simpl; tauto. Qed.

(** C3, as the two programs implement it.  Every tweet of the demo pipeline
    ([get_demo_tweets]) and of the live pipeline ([search_ocean_hazards])
    carries a category of the closed set, and that category is the value of
    the program's categoriser on the tweet's matched keywords, so two such
    tweets with the same matched keywords carry the same category.  Every
    tweet of the fallback demo pipeline ([get_fallback_tech_demo_tweets])
    carries no matched keyword and one of the hand-written labels tech,
    finance and eco. *)
Theorem hazard_category_closed_and_functional
    (polarity_of : string -> option Q) (demo_draws : nat -> Demo.DemoDraw)
    (scrape_multiple_sources : string -> nat -> option (list Live.RawTweet))
    (hash : string -> Z) (fallback_draws : nat -> Live.FallbackDraw)
    (max_tweets_per_keyword : nat) (cache : gmap string sentiment) :
  Forall (fun t => In (Demo.hazard_category t) closed_categories
                   /\ Demo.categorize_hazard (Demo.matched_keywords t)
                      = Some (Demo.hazard_category t))
    (fst (Demo.get_demo_tweets polarity_of demo_draws cache))
  /\ Forall (fun t => In (Live.hazard_category t) closed_categories
                      /\ Live.categorize_hazard (Live.matched_keywords t)
                         = Live.hazard_category t)
       (fst (Live.search_ocean_hazards polarity_of scrape_multiple_sources hash
               max_tweets_per_keyword cache))
  /\ (forall tweets cache',
        Live.get_fallback_tech_demo_tweets polarity_of fallback_draws cache
        = Some (tweets, cache') ->
        Forall (fun t => Live.matched_keywords t = []
                         /\ In (Live.hazard_category t) ["tech"; "finance"; "eco"])
          tweets).
Proof.
  split; [|split].
  - unfold Demo.get_demo_tweets. apply demo_loop_tweets; [|constructor].
    intros i data s Hdata.
    destruct (demo_tweet_fields demo_draws i data s) as [-> ->].
    pose proof demo_data_labels as Hall. rewrite List.Forall_forall in Hall.
    destruct (Hall data Hdata) as [Hcat Hclosed]. now split.
  - apply (search_ocean_hazards_invariant (fun _ => True)
             (fun t => In (Live.hazard_category t) closed_categories
                       /\ Live.categorize_hazard (Live.matched_keywords t)
                          = Live.hazard_category t)
             polarity_of scrape_multiple_sources hash).
    + intros; exact I.
    + intros raw s _ _.
      destruct (live_tweet_fields raw (Live.find_matching_keywords (Live.raw_content raw)) s
                  (Live.categorize_hazard (Live.find_matching_keywords (Live.raw_content raw))))
        as [-> ->].
      split; [apply live_categorize_closed | reflexivity].
    + intros k s _. exact I.
  - intros tweets cache' E.
    apply (fallback_tweets_invariant (fun _ => True)
             (fun t => Live.matched_keywords t = []
                       /\ In (Live.hazard_category t) ["tech"; "finance"; "eco"])
             polarity_of fallback_draws) with (cache := cache) (cache' := cache');
      [intros; exact I | | intros k s _; exact I | exact E].
    intros i data s _ Hdata.
    destruct (fallback_tweet_fields fallback_draws i data s) as [-> ->].
    pose proof fallback_data_labels as Hall. rewrite List.Forall_forall in Hall.
    exact (Hall data Hdata).
Qed.

(** C3 as stated fails on the fallback demo pipeline of the live program:
    its five tweets carry the labels tech, tech, finance, tech and eco, none
    of them in the closed set, all with the same (empty) matched keywords. *)
Lemma fallback_demo_category_counterexample :
  option_map
    (fun r => map (fun t => (Live.matched_keywords t, Live.hazard_category t)) (fst r))
    (Live.get_fallback_tech_demo_tweets (fun _ => Some 0)
       (fun _ => Live.Build_FallbackDraw "2025-01-01 00:00" 10 50 5 false) ∅)
  = Some [([], "tech"); ([], "tech"); ([], "finance"); ([], "tech"); ([], "eco")]
  /\ ~ In "tech" closed_categories
  /\ ~ In "finance" closed_categories
  /\ ~ In "eco" closed_categories.
Proof.
  split; [vm_compute; reflexivity|].
  repeat split; vm_compute;
    intros H; repeat (destruct H as [H|H]; [discriminate H|]); exact H.
Qed.

End TweetCategory.

(** ** Rounding *)

Section Rounding.

Local Open Scope Q_scope.

Lemma round_half_even_near (x : Q) :
  - (1 # 2) <= inject_Z (round_half_even x) - x <= 1 # 2.
Proof.
  unfold round_half_even.
  pose proof (Qfloor_le x) as Hlo. pose proof (Qlt_floor x) as Hhi.
  rewrite inject_Z_plus in Hhi. change (inject_Z 1) with 1 in Hhi.
  destruct (Qltb (x - inject_Z (Qfloor x)) (1 # 2)) eqn:E1.
  - apply Qltb_lt in E1. lra.
  - apply Qltb_ge in E1.
    destruct (Qltb (1 # 2) (x - inject_Z (Qfloor x))) eqn:E2.
    + rewrite inject_Z_plus. change (inject_Z 1) with 1. lra.
    + apply Qltb_ge in E2. destruct (Z.even (Qfloor x)).
      * lra.
      * rewrite inject_Z_plus. change (inject_Z 1) with 1. lra.
Qed.

Lemma py_round_rounded (x : Q) (ndigits : nat) : rounded_to ndigits x (py_round x ndigits).
Proof.
  unfold rounded_to, py_round.
  set (s := (10 ^ Z.of_nat ndigits)%Z).
  assert (Hs : (0 < s)%Z) by (apply Z.pow_pos_nonneg; lia).
  assert (HsQ : 0 < inject_Z s) by (change 0 with (inject_Z 0); now rewrite <- Zlt_Qlt).
  exists (round_half_even (x * inject_Z s)). split; [reflexivity|].
  pose proof (round_half_even_near (x * inject_Z s)) as [Hlo Hhi].
  set (k := inject_Z (round_half_even (x * inject_Z s))) in *.
  rewrite inject_Z_mult. change (inject_Z 2) with 2.
  assert (Heq : (k / inject_Z s - x) * (2 * inject_Z s) == 2 * (k - x * inject_Z s))
    by (field; lra).
  assert (Hpos : 0 <= 2 * inject_Z s) by lra.
  rewrite <- (Qabs_pos (2 * inject_Z s)) at 1 by exact Hpos.
  rewrite <- Qabs_Qmult, Heq.
  apply Qabs_Qle_condition. lra.
Qed.

End Rounding.

(** ** Counters and distinct elements *)

Section CounterFacts.

Lemma dict_get_incr (x k : string) (c : list (string * nat)) :
  dict_get (incr x c) k
  = if String.eqb x k then Some (S (default O (dict_get c k))) else dict_get c k.
Proof.
  induction c as [|[k' n] c IH]; simpl.
  - reflexivity.
  - destruct (String.eqb k' x) eqn:E1; simpl.
    + apply String.eqb_eq in E1. subst k'.
      destruct (String.eqb x k); reflexivity.
    + rewrite IH. destruct (String.eqb k' k) eqn:E2; [|reflexivity].
      apply String.eqb_eq in E2. subst k'.
      now rewrite String.eqb_sym, E1.
Qed.

Lemma dict_get_count_loop (xs : list string) (k : string) (c : list (string * nat)) :
  dict_get (fold_left (fun c x => incr x c) xs c) k
  = match dict_get c k, count_occ string_dec xs k with
    | None, O => None
    | None, S n => Some (S n)
    | Some m, n => Some (m + n)%nat
    end.
Proof.
  revert c. induction xs as [|x xs IH]; intros c; simpl.
  - destruct (dict_get c k); [f_equal; lia | reflexivity].
  - rewrite IH, dict_get_incr.
    destruct (string_dec x k) as [->|Hne].
    + rewrite String.eqb_refl. destruct (dict_get c k); simpl; f_equal; lia.
    + apply String.eqb_neq in Hne. rewrite Hne. reflexivity.
Qed.

(** A counter has an entry exactly for the elements that occur, with the
    number of their occurrences. *)
Lemma Counter_distribution (xs : list string) : distribution_of xs (Counter xs).
Proof. intros k. unfold Counter. now rewrite dict_get_count_loop. Qed.

Lemma distinct_In (xs : list string) (x : string) : In x (distinct xs) <-> In x xs.
Proof.
  induction xs as [|y xs IH]; simpl; [reflexivity|].
  rewrite filter_In, IH, negb_true_iff. split.
  - intros [H|[H _]]; [now left | now right].
  - intros [H|H]; [now left|].
    destruct (String.eqb y x) eqn:E.
    + left. now apply String.eqb_eq.
    + right. now split.
Qed.

Lemma py_div_Some (x : Q) (n : nat) :
  n <> O -> py_div x n = Some (x / inject_Z (Z.of_nat n))%Q.
Proof. destruct n; [congruence | reflexivity]. Qed.

End CounterFacts.

(** ** The report *)

Section DemoReport.

Local Open Scope Q_scope.

Lemma demo_category_stats_present (tweets : list Demo.OceanHazardTweet) (category : string) :
  In category (map Demo.hazard_category tweets) ->
  exists stats,
    Demo.category_stats tweets category = Some stats
    /\ demo_breakdown_of tweets category stats.
Proof.
  intros Hin. unfold Demo.category_stats, demo_breakdown_of.
  set (cat_tweets := List.filter (fun t => String.eqb (Demo.hazard_category t) category) tweets).
  assert (Hlen : length cat_tweets <> O).
  { apply in_map_iff in Hin as [t [Hcat Ht]].
    assert (Hmem : In t cat_tweets)
      by (apply filter_In; split; [exact Ht | now apply String.eqb_eq]).
    destruct cat_tweets; [contradiction | discriminate]. }
  rewrite !py_div_Some by exact Hlen. simpl.
  eexists. split; [reflexivity|]. simpl.
  split; [lia|]. split; [reflexivity|].
  split; [apply Counter_distribution|].
  repeat split; apply py_round_rounded.
Qed.

Lemma demo_category_loop_total (tweets : list Demo.OceanHazardTweet) (todo : list string)
    (categories : gmap string Demo.CategoryStats) :
  (forall c, In c todo -> In c (map Demo.hazard_category tweets)) ->
  exists result,
    Demo.category_loop tweets todo categories = Some result
    /\ forall c,
         (In c todo -> result !! c = Demo.category_stats tweets c)
         /\ (~ In c todo -> result !! c = categories !! c).
Proof.
  revert categories. induction todo as [|category rest IH]; intros categories Hsub; simpl.
  - exists categories. split; [reflexivity|]. intros c. split; [contradiction | reflexivity].
  - destruct (demo_category_stats_present tweets category) as [stats [Hstats _]];
      [apply Hsub; now left|].
    rewrite Hstats. simpl.
    destruct (IH (<[category := stats]> categories)) as [result [Hloop Hres]];
      [intros c Hc; apply Hsub; now right|].
    exists result. split; [exact Hloop|].
    intros c. destruct (Hres c) as [Hin Hout]. split.
    + intros [<-|Hc].
      * destruct (in_dec string_dec category rest) as [Hr|Hr]; [now apply Hin|].
        rewrite (Hout Hr), lookup_insert_eq. now symmetry.
      * now apply Hin.
    + intros Hnot. rewrite Hout by tauto.
      apply lookup_insert_ne. intros ->. apply Hnot. now left.
Qed.

(** The report of a non-empty list of tweets. *)
Lemma demo_report_full (t : Demo.OceanHazardTweet) (ts : list Demo.OceanHazardTweet) :
  exists report,
    Demo.generate_sentiment_report (t :: ts) = Some (Demo.FullReport report)
    /\ Demo.total_tweets report = length (t :: ts)
    /\ Demo.sentiment_distribution report = Counter (map Demo.sentiment_label (t :: ts))
    /\ forall c,
         (In c (map Demo.hazard_category (t :: ts)) ->
          Demo.by_hazard_category report !! c = Demo.category_stats (t :: ts) c)
         /\ (~ In c (map Demo.hazard_category (t :: ts)) ->
             Demo.by_hazard_category report !! c = None).
Proof.
  destruct (demo_category_loop_total (t :: ts)
              (distinct (map Demo.hazard_category (t :: ts))) ∅)
    as [categories [Hloop Hres]]; [intros c; apply distinct_In|].
  unfold Demo.generate_sentiment_report. rewrite Hloop.
  eexists. split; [reflexivity|].
  cbn [Demo.by_hazard_category Demo.total_tweets Demo.sentiment_distribution].
  split; [reflexivity|]. split; [reflexivity|].
  intros c. destruct (Hres c) as [Hin Hout]. split.
  - intros Hc. apply Hin. apply (proj2 (distinct_In _ _)). exact Hc.
  - intros Hc. rewrite Hout; [apply lookup_empty|].
    intros Hd. apply Hc. apply (proj1 (distinct_In _ _)). exact Hd.
Qed.

End DemoReport.

Section LiveReport.

Local Open Scope Q_scope.




End LiveReport.

Section ReportContract.

Local Open Scope Q_scope.




End ReportContract.

(** * Further properties of the code *)

(** ** The scraper *)

Section ExtractedFacts.

Lemma extracted_length (containers : list (option Live.RawTweet)) :
  (length (Scraper.extracted containers) <= length containers)%nat.
Proof.
  induction containers as [|[t|] rest IH]; simpl; lia.
Qed.

Lemma extracted_In (containers : list (option Live.RawTweet)) (t : Live.RawTweet) :
  In t (Scraper.extracted containers) <-> In (Some t) containers.
Proof.
  induction containers as [|[t'|] rest IH]; simpl.
  - reflexivity.
  - rewrite IH. split; intros [H|H]; auto; left; congruence.
  - rewrite IH. split; [auto | intros [H|H]; [discriminate | exact H]].
Qed.

End ExtractedFacts.

Section NitterFacts.

Variable nitter_page : string -> string -> option (list (option Live.RawTweet)).

Lemma nitter_loop_first (instances : list string) (query : string) (max_tweets : nat) :
  (Scraper.nitter_loop nitter_page instances query max_tweets = []
   /\ forall instance, In instance instances -> yields_nothing nitter_page query max_tweets instance)
  \/ (exists before instance after containers,
        instances = before ++ instance :: after
        /\ (forall i, In i before -> yields_nothing nitter_page query max_tweets i)
        /\ nitter_page instance query = Some containers
        /\ Scraper.extracted (firstn max_tweets containers) <> []
        /\ Scraper.nitter_loop nitter_page instances query max_tweets
           = Scraper.extracted (firstn max_tweets containers)).
Proof.
  induction instances as [|instance rest IH]; simpl.
  - left. split; [reflexivity | intros i []].
  - destruct (nitter_page instance query) as [containers|] eqn:Hpage.
    + destruct (Scraper.extracted (firstn max_tweets containers)) as [|t ts] eqn:Hext.
      * destruct IH as [[Hnil Hall] | (before & i & after & cs & Hsplit & Hbefore & Hp & Hne & Hres)].
        -- left. split; [exact Hnil|]. intros i [<-|Hi]; [|now apply Hall].
           unfold yields_nothing. now rewrite Hpage.
        -- right. exists (instance :: before), i, after, cs.
           split; [now rewrite Hsplit|]. split; [|now repeat split].
           intros j [<-|Hj]; [|now apply Hbefore].
           unfold yields_nothing. now rewrite Hpage.
      * right. exists [], instance, rest, containers.
        split; [reflexivity|]. split; [intros i []|].
        split; [exact Hpage|]. rewrite Hext. split; [discriminate | reflexivity].
    + destruct IH as [[Hnil Hall] | (before & i & after & cs & Hsplit & Hbefore & Hp & Hne & Hres)].
      * left. split; [exact Hnil|]. intros i [<-|Hi]; [|now apply Hall].
        unfold yields_nothing. now rewrite Hpage.
      * right. exists (instance :: before), i, after, cs.
        split; [now rewrite Hsplit|]. split; [|now repeat split].
        intros j [<-|Hj]; [|now apply Hbefore].
        unfold yields_nothing. now rewrite Hpage.
Qed.

Lemma nitter_loop_length (instances : list string) (query : string) (max_tweets : nat) :
  (length (Scraper.nitter_loop nitter_page instances query max_tweets) <= max_tweets)%nat.
Proof.
  destruct (nitter_loop_first instances query max_tweets)
    as [[-> _] | (before & i & after & cs & _ & _ & _ & _ & ->)]; simpl; [lia|].
  etransitivity; [apply extracted_length|]. rewrite length_firstn. lia.
Qed.

End NitterFacts.

Section ElementLoopFacts.

Lemma element_loop_invariant (tweet_elements : list (option Live.RawTweet))
    (max_tweets : nat) (tweets : list Live.RawTweet) (tweet_ids : gset string) :
  ids_agree tweets tweet_ids ->
  (length tweets < max_tweets)%nat ->
  let result := Scraper.element_loop tweet_elements max_tweets tweets tweet_ids in
  ids_agree (fst result) (snd result)
  /\ (length (fst result) <= max_tweets)%nat
  /\ (forall t, In t (fst result) -> In t tweets \/ In (Some t) tweet_elements).
Proof.
  revert tweets tweet_ids.
  induction tweet_elements as [|[tweet_data|] rest IH]; intros tweets tweet_ids Hids Hlen; simpl.
  - split; [exact Hids|]. split; [lia | auto].
  - destruct (decide (Live.raw_tweet_id tweet_data ∈ tweet_ids)) as [Hseen|Hnew].
    + destruct (IH tweets tweet_ids Hids Hlen) as (H1 & H2 & H3).
      split; [exact H1|]. split; [exact H2|].
      intros t Ht. destruct (H3 t Ht); auto.
    + assert (Hids' : ids_agree (tweets ++ [tweet_data])
                        ({[Live.raw_tweet_id tweet_data]} ∪ tweet_ids)).
      { destruct Hids as [Hnd Hiff]. split.
        - rewrite map_app. simpl.
          apply Permutation.Permutation_NoDup with
            (l := Live.raw_tweet_id tweet_data :: map Live.raw_tweet_id tweets).
          + apply Permutation.Permutation_cons_append.
          + constructor; [|exact Hnd]. intros Hin. apply Hnew. now apply Hiff.
        - intros id. rewrite map_app, in_app_iff, elem_of_union, elem_of_singleton, Hiff.
          simpl. intuition congruence. }
      destruct (Nat.leb_spec max_tweets (length (tweets ++ [tweet_data]))) as [Hfull|Hroom].
      * simpl. split; [exact Hids'|]. split.
        -- rewrite length_app in *. simpl in *. lia.
        -- intros t Ht. apply in_app_iff in Ht as [Ht|[<-|[]]]; auto.
      * destruct (IH _ _ Hids' Hroom) as (H1 & H2 & H3).
        split; [exact H1|]. split; [exact H2|].
        intros t Ht. destruct (H3 t Ht) as [Hin|Hin]; [|auto].
        apply in_app_iff in Hin as [Hin|[<-|[]]]; auto.
  - destruct (IH tweets tweet_ids Hids Hlen) as (H1 & H2 & H3).
    split; [exact H1|]. split; [exact H2|].
    intros t Ht. destruct (H3 t Ht); auto.
Qed.

End ElementLoopFacts.

Section SeleniumFacts.

Variable find_elements : string -> nat -> option (list (option Live.RawTweet)).
Variable scroll : string -> nat -> bool.

Lemma scroll_loop_invariant (remaining : nat) (query : string) (max_tweets : nat)
    (tweets : list Live.RawTweet) (tweet_ids : gset string) :
  ids_agree tweets tweet_ids ->
  (length tweets <= max_tweets)%nat ->
  let result := Scraper.scroll_loop find_elements scroll remaining query max_tweets
                  tweets tweet_ids in
  List.NoDup (map Live.raw_tweet_id result)
  /\ (length result <= max_tweets)%nat
  /\ (forall t, In t result ->
        In t tweets
        \/ exists attempt tweet_elements,
             (attempt < 15)%nat
             /\ find_elements query attempt = Some tweet_elements
             /\ In (Some t) tweet_elements).
Proof.
  revert tweets tweet_ids.
  induction remaining as [|remaining IH]; intros tweets tweet_ids Hids Hlen; cbn zeta.
  - simpl. split; [apply Hids|]. split; [exact Hlen | auto].
  - cbn [Scraper.scroll_loop].
    destruct (Nat.ltb_spec (length tweets) max_tweets) as [Hroom|Hfull];
      [|split; [apply Hids|]; split; [exact Hlen | auto]].
    destruct (find_elements query (15 - S remaining)) as [tweet_elements|] eqn:Hfind;
      [|split; [apply Hids|]; split; [exact Hlen | auto]].
    destruct (element_loop_invariant tweet_elements max_tweets tweets tweet_ids Hids Hroom)
      as (H1 & H2 & H3).
    destruct (Scraper.element_loop tweet_elements max_tweets tweets tweet_ids)
      as [tweets' tweet_ids'].
    simpl in H1, H2, H3.
    assert (Hhere : forall t, In t tweets' ->
              In t tweets
              \/ exists attempt elements,
                   (attempt < 15)%nat
                   /\ find_elements query attempt = Some elements
                   /\ In (Some t) elements).
    { intros t Ht. destruct (H3 t Ht) as [Hin|Hin]; [now left|].
      right. exists (15 - S remaining)%nat, tweet_elements.
      split; [lia|]. now split. }
    destruct (max_tweets <=? length tweets')%nat;
      [split; [apply H1|]; split; [exact H2 | exact Hhere]|].
    destruct (scroll query (15 - S remaining));
      [|split; [apply H1|]; split; [exact H2 | exact Hhere]].
    destruct (IH tweets' tweet_ids' H1 H2) as (G1 & G2 & G3).
    split; [exact G1|]. split; [exact G2|].
    intros t Ht. destruct (G3 t Ht) as [Hin|Hin]; [now apply Hhere | now right].
Qed.

End SeleniumFacts.

Section UniqueLoopFacts.

Variable hash : string -> Z.

Lemma unique_loop_invariant (all_tweets unique_tweets : list Live.RawTweet)
    (seen_content : gset Z) :
  hashes_agree hash unique_tweets seen_content ->
  exists kept,
    Scraper.unique_loop hash all_tweets unique_tweets seen_content = unique_tweets ++ kept
    /\ sublist kept all_tweets
    /\ List.NoDup (map (fun t => hash (Live.raw_content t)) (unique_tweets ++ kept))
    /\ (forall t, In t all_tweets ->
          In (hash (Live.raw_content t))
            (map (fun t => hash (Live.raw_content t)) (unique_tweets ++ kept))).
Proof.
  revert unique_tweets seen_content.
  induction all_tweets as [|tweet rest IH]; intros unique_tweets seen_content Hagree; simpl.
  - exists []. rewrite app_nil_r. split; [reflexivity|]. split; [constructor|].
    split; [apply Hagree | intros t []].
  - destruct (decide (hash (Live.raw_content tweet) ∈ seen_content)) as [Hseen|Hnew].
    + destruct (IH unique_tweets seen_content Hagree) as (kept & Heq & Hsub & Hnd & Hcov).
      exists kept. split; [exact Heq|]. split; [now constructor|]. split; [exact Hnd|].
      intros t [<-|Ht]; [|now apply Hcov].
      rewrite map_app. apply in_or_app. left. now apply Hagree.
    + assert (Hagree' : hashes_agree hash (unique_tweets ++ [tweet])
                          ({[hash (Live.raw_content tweet)]} ∪ seen_content)).
      { destruct Hagree as [Hnd Hiff]. split.
        - rewrite map_app. simpl.
          apply Permutation.Permutation_NoDup with
            (l := hash (Live.raw_content tweet)
                  :: map (fun t => hash (Live.raw_content t)) unique_tweets).
          + apply Permutation.Permutation_cons_append.
          + constructor; [|exact Hnd]. intros Hin. apply Hnew. now apply Hiff.
        - intros h. rewrite map_app, in_app_iff, elem_of_union, elem_of_singleton, Hiff.
          simpl. intuition congruence. }
      destruct (IH _ _ Hagree') as (kept & Heq & Hsub & Hnd & Hcov).
      exists (tweet :: kept). rewrite <- app_assoc in Heq, Hnd, Hcov. simpl in Heq, Hnd, Hcov.
      split; [exact Heq|]. split; [now constructor|]. split; [exact Hnd|].
      intros t [<-|Ht]; [|now apply Hcov].
      rewrite map_app. apply in_or_app. right. now left.
Qed.

End UniqueLoopFacts.

Section NitterContract.

Variable nitter_page : string -> string -> option (list (option Live.RawTweet)).

(** X1.  [scrape_nitter_search] returns at most [max_tweets] tweets, and they are
    the tweets extracted from the first [max_tweets] containers of the first
    instance, in the order of [nitter_instances], that yields any; it returns
    the empty list exactly when every instance yields nothing. *)
Theorem scrape_nitter_search_first_instance (query : string) (max_tweets : nat) :
  (length (Scraper.scrape_nitter_search nitter_page query max_tweets) <= max_tweets)%nat
  /\ ((Scraper.scrape_nitter_search nitter_page query max_tweets = []
       /\ forall instance, In instance Scraper.nitter_instances ->
                           yields_nothing nitter_page query max_tweets instance)
      \/ (exists before instance after containers,
            Scraper.nitter_instances = before ++ instance :: after
            /\ (forall i, In i before -> yields_nothing nitter_page query max_tweets i)
            /\ nitter_page instance query = Some containers
            /\ Scraper.extracted (firstn max_tweets containers) <> []
            /\ Scraper.scrape_nitter_search nitter_page query max_tweets
               = Scraper.extracted (firstn max_tweets containers))).
Proof.
  split; [apply nitter_loop_length | apply nitter_loop_first].
Qed.

End NitterContract.

Section SeleniumContract.

Variable setup_driver : string -> bool.
Variable open_search : string -> bool.
Variable find_elements : string -> nat -> option (list (option Live.RawTweet)).
Variable scroll : string -> nat -> bool.

Lemma ids_agree_empty : ids_agree [] ∅.
Proof.
  split; [constructor|]. intros id. simpl. split; [|tauto].
  intros H. exact (not_elem_of_empty (C := gset string) id H).
Qed.

Lemma scrape_twitter_selenium_length (query : string) (max_tweets : nat) :
  (length (Scraper.scrape_twitter_selenium setup_driver open_search find_elements scroll
             query max_tweets) <= max_tweets)%nat.
Proof.
  unfold Scraper.scrape_twitter_selenium.
  destruct (setup_driver query); [|simpl; lia].
  destruct (open_search query); [|simpl; lia].
  destruct (scroll_loop_invariant find_elements scroll 15 query max_tweets [] ∅
              ids_agree_empty) as (_ & H & _); [simpl; lia | exact H].
Qed.

(** X2.  [scrape_twitter_selenium] returns at most [max_tweets] tweets, no two of
    them with the same tweet id, each of them extracted from an element found
    at one of the at most 15 scroll attempts. *)
Theorem scrape_twitter_selenium_capped_distinct (query : string) (max_tweets : nat) :
  let tweets :=
    Scraper.scrape_twitter_selenium setup_driver open_search find_elements scroll
      query max_tweets in
  (length tweets <= max_tweets)%nat
  /\ List.NoDup (map Live.raw_tweet_id tweets)
  /\ (forall t, In t tweets ->
        exists attempt tweet_elements,
          (attempt < 15)%nat
          /\ find_elements query attempt = Some tweet_elements
          /\ In (Some t) tweet_elements).
Proof.
  cbv zeta. unfold Scraper.scrape_twitter_selenium.
  destruct (setup_driver query); [|simpl; split; [lia|]; split; [constructor | intros t []]].
  destruct (open_search query); [|simpl; split; [lia|]; split; [constructor | intros t []]].
  destruct (scroll_loop_invariant find_elements scroll 15 query max_tweets [] ∅
              ids_agree_empty)
    as (H1 & H2 & H3); [simpl; lia|].
  split; [exact H2|]. split; [exact H1|].
  intros t Ht. destruct (H3 t Ht) as [[]|H]. exact H.
Qed.

End SeleniumContract.

Section ScraperContract.

Variable nitter_page : string -> string -> option (list (option Live.RawTweet)).
Variable setup_driver : string -> bool.
Variable open_search : string -> bool.
Variable find_elements : string -> nat -> option (list (option Live.RawTweet)).
Variable scroll : string -> nat -> bool.
Variable hash : string -> Z.

Lemma hashes_agree_empty : hashes_agree hash [] ∅.
Proof.
  split; [constructor|]. intros h. simpl. split; [|tauto].
  intros H. exact (not_elem_of_empty (C := gset Z) h H).
Qed.

(** What the deduplication loop of [scrape_multiple_sources] is run on has
    at most [max_tweets] tweets. *)
Lemma all_tweets_length (query : string) (max_tweets : nat) :
  let nitter := Scraper.scrape_nitter_search nitter_page query max_tweets in
  (length (if (2 * length nitter <? max_tweets)%nat
           then nitter ++ Scraper.scrape_twitter_selenium setup_driver open_search
                            find_elements scroll query (max_tweets - length nitter)
           else nitter) <= max_tweets)%nat.
Proof.
  cbv zeta.
  pose proof (nitter_loop_length nitter_page Scraper.nitter_instances query max_tweets) as Hn.
  fold (Scraper.scrape_nitter_search nitter_page query max_tweets) in Hn.
  destruct (2 * length (Scraper.scrape_nitter_search nitter_page query max_tweets)
            <? max_tweets)%nat; [|exact Hn].
  pose proof (scrape_twitter_selenium_length setup_driver open_search find_elements scroll
                query (max_tweets - length (Scraper.scrape_nitter_search nitter_page query
                                              max_tweets))) as Hs.
  rewrite length_app. lia.
Qed.

Lemma scrape_multiple_sources_length (query : string) (max_tweets : nat) :
  (length (Scraper.scrape_multiple_sources nitter_page setup_driver open_search
             find_elements scroll hash query max_tweets) <= max_tweets)%nat.
Proof.
  unfold Scraper.scrape_multiple_sources.
  pose proof (all_tweets_length query max_tweets) as Hall. cbv zeta in Hall.
  match goal with
  | |- (length (Scraper.unique_loop _ ?all_tweets _ _) <= _)%nat =>
      destruct (unique_loop_invariant hash all_tweets [] ∅ hashes_agree_empty)
        as (kept & Heq & Hsub & _)
  end.
  cbn [app] in Heq. rewrite Heq. apply sublist_length in Hsub. lia.
Qed.

(** X3.  [scrape_multiple_sources] returns at most [max_tweets] tweets, no two of
    them with the same content hash; they are, in their order, tweets of the
    Nitter result followed by the Selenium result, and every tweet of those
    results has its content hash among the tweets returned.  Selenium is
    asked only when Nitter returned fewer than half of [max_tweets], and
    then for the missing number of tweets. *)
Theorem scrape_multiple_sources_capped_unique (query : string) (max_tweets : nat) :
  let nitter := Scraper.scrape_nitter_search nitter_page query max_tweets in
  let all_tweets :=
    if (2 * length nitter <? max_tweets)%nat
    then nitter ++ Scraper.scrape_twitter_selenium setup_driver open_search find_elements
                     scroll query (max_tweets - length nitter)
    else nitter in
  let unique_tweets :=
    Scraper.scrape_multiple_sources nitter_page setup_driver open_search find_elements
      scroll hash query max_tweets in
  (length unique_tweets <= max_tweets)%nat
  /\ List.NoDup (map (fun t => hash (Live.raw_content t)) unique_tweets)
  /\ sublist unique_tweets all_tweets
  /\ (forall t, In t all_tweets ->
        In (hash (Live.raw_content t))
          (map (fun t => hash (Live.raw_content t)) unique_tweets)).
Proof.
  cbv zeta. split; [apply scrape_multiple_sources_length|].
  unfold Scraper.scrape_multiple_sources.
  destruct (unique_loop_invariant hash
              (if (2 * length (Scraper.scrape_nitter_search nitter_page query max_tweets)
                   <? max_tweets)%nat
               then Scraper.scrape_nitter_search nitter_page query max_tweets
                    ++ Scraper.scrape_twitter_selenium setup_driver open_search find_elements
                         scroll query
                         (max_tweets
                          - length (Scraper.scrape_nitter_search nitter_page query max_tweets))
               else Scraper.scrape_nitter_search nitter_page query max_tweets)
              [] ∅ hashes_agree_empty) as (kept & Heq & Hsub & Hnd & Hcov).
  cbn [app] in Heq, Hnd, Hcov. rewrite Heq. now repeat split.
Qed.

End ScraperContract.

(** ** The live pipeline *)

Section DictSetFacts.

Context {V : Type}.

Lemma dict_set_keys (k : Z) (v : V) (d : list (Z * V)) :
  map fst (Live.dict_set k v d)
  = if in_dec Z.eq_dec k (map fst d) then map fst d else map fst d ++ [k].
Proof.
  induction d as [|[k' v'] d IH]; simpl.
  - reflexivity.
  - destruct (Z.eqb_spec k' k) as [->|Hne]; simpl.
    + destruct (Z.eq_dec k k); [reflexivity | congruence].
    + rewrite IH. destruct (Z.eq_dec k' k); [congruence|].
      now destruct (in_dec Z.eq_dec k (map fst d)).
Qed.

Lemma dict_set_length (k : Z) (v : V) (d : list (Z * V)) :
  (length (Live.dict_set k v d) <= S (length d))%nat.
Proof.
  induction d as [|[k' v'] d IH]; simpl; [lia|].
  destruct (k' =? k)%Z; simpl; lia.
Qed.

Lemma dict_set_NoDup (k : Z) (v : V) (d : list (Z * V)) :
  List.NoDup (map fst d) -> List.NoDup (map fst (Live.dict_set k v d)).
Proof.
  intros Hnd. rewrite dict_set_keys.
  destruct (in_dec Z.eq_dec k (map fst d)) as [E|E]; [exact Hnd|].
  apply Permutation.Permutation_NoDup with (l := k :: map fst d).
  - apply Permutation.Permutation_cons_append.
  - now constructor.
Qed.

(** After [d[k] = v] an entry is the new entry of [k] or an entry of [d]
    under another key. *)
Lemma dict_set_In (k : Z) (v : V) (d : list (Z * V)) (k' : Z) (v' : V) :
  List.NoDup (map fst d) ->
  In (k', v') (Live.dict_set k v d) ->
  (k' = k /\ v' = v) \/ (k' <> k /\ In (k', v') d).
Proof.
  induction d as [|[k0 v0] d IH]; simpl; intros Hnd Hin.
  - destruct Hin as [[= <- <-]|[]]. now left.
  - inversion Hnd as [|? ? Hk0 Hnd']; subst.
    destruct (Z.eqb_spec k0 k) as [->|Hne]; simpl in Hin.
    + destruct Hin as [[= <- <-]|Hin]; [now left|].
      right. split; [|now right]. intros ->. apply Hk0.
      apply in_map_iff. now exists (k, v').
    + destruct Hin as [[= <- <-]|Hin].
      * right. split; [exact Hne | now left].
      * destruct (IH Hnd' Hin) as [H|[Hk Hd]]; [now left|].
        right. split; [exact Hk | now right].
Qed.

End DictSetFacts.

Section UniqueByContent.

Variable hash : string -> Z.

Lemma last_with_hash_snoc (ts : list Live.OceanHazardTweet) (t v : Live.OceanHazardTweet) :
  last_with_hash hash ts v ->
  hash (Live.content t) <> hash (Live.content v) ->
  last_with_hash hash (ts ++ [t]) v.
Proof.
  intros (earlier & later & -> & Hlater) Hne.
  exists earlier, (later ++ [t]). split; [now rewrite <- app_assoc|].
  intros t' Ht'. apply in_app_iff in Ht' as [Ht'|[<-|[]]]; [now apply Hlater | exact Hne].
Qed.

Lemma unique_dict_invariant (all_tweets : list Live.OceanHazardTweet) :
  let d := fold_left (fun d t => Live.dict_set (hash (Live.content t)) t d) all_tweets [] in
  List.NoDup (map fst d)
  /\ (forall k v, In (k, v) d -> k = hash (Live.content v) /\ last_with_hash hash all_tweets v)
  /\ (forall t, In t all_tweets -> In (hash (Live.content t)) (map fst d))
  /\ (length d <= length all_tweets)%nat.
Proof.
  induction all_tweets as [|t ts IH] using rev_ind; cbv zeta.
  - simpl. split; [constructor|]. split; [intros k v []|]. split; [intros t []|lia].
  - rewrite fold_left_app. simpl.
    set (d := fold_left (fun d t => Live.dict_set (hash (Live.content t)) t d) ts []) in *.
    destruct IH as (Hnd & Hent & Hcov & Hlen).
    split; [now apply dict_set_NoDup|]. split; [|split].
    + intros k v Hin. apply dict_set_In in Hin; [|exact Hnd].
      destruct Hin as [[-> ->]|[Hk Hin]].
      * split; [reflexivity|]. exists ts, []. split; [reflexivity | intros t' []].
      * destruct (Hent k v Hin) as [-> Hlast]. split; [reflexivity|].
        apply last_with_hash_snoc; [exact Hlast | congruence].
    + intros t' Ht'. rewrite dict_set_keys.
      destruct (in_dec Z.eq_dec (hash (Live.content t)) (map fst d)) as [E|E].
      * apply in_app_iff in Ht' as [Ht'|[<-|[]]]; [now apply Hcov | exact E].
      * apply in_app_iff. apply in_app_iff in Ht' as [Ht'|[<-|[]]].
        -- left. now apply Hcov.
        -- right. now left.
    + pose proof (dict_set_length (hash (Live.content t)) t d). rewrite length_app. simpl. lia.
Qed.

Lemma unique_by_content_hashes (all_tweets : list Live.OceanHazardTweet) :
  map (fun t => hash (Live.content t)) (Live.unique_by_content hash all_tweets)
  = map fst (fold_left (fun d t => Live.dict_set (hash (Live.content t)) t d) all_tweets []).
Proof.
  unfold Live.unique_by_content.
  destruct (unique_dict_invariant all_tweets) as (_ & Hent & _).
  rewrite map_map. apply map_ext_in. intros [k v] Hin.
  destruct (Hent k v Hin) as [-> _]. reflexivity.
Qed.

Lemma unique_by_content_NoDup (all_tweets : list Live.OceanHazardTweet) :
  List.NoDup (map (fun t => hash (Live.content t)) (Live.unique_by_content hash all_tweets)).
Proof.
  rewrite unique_by_content_hashes.
  now destruct (unique_dict_invariant all_tweets) as (Hnd & _).
Qed.

Lemma unique_by_content_last (all_tweets : list Live.OceanHazardTweet)
    (t : Live.OceanHazardTweet) :
  In t (Live.unique_by_content hash all_tweets) -> last_with_hash hash all_tweets t.
Proof.
  unfold Live.unique_by_content. intros Ht.
  apply in_map_iff in Ht as [[k v] [<- Hin]].
  destruct (unique_dict_invariant all_tweets) as (_ & Hent & _).
  now apply (Hent k v).
Qed.

Lemma unique_by_content_length (all_tweets : list Live.OceanHazardTweet) :
  (length (Live.unique_by_content hash all_tweets) <= length all_tweets)%nat.
Proof.
  unfold Live.unique_by_content. rewrite length_map.
  now destruct (unique_dict_invariant all_tweets) as (_ & _ & _ & Hlen).
Qed.

(** X4.  The deduplication at the end of [search_ocean_hazards] returns tweets
    with pairwise distinct content hashes, one for each content hash of its
    input; the tweet kept for a hash is the last tweet of the input with that
    hash. *)
Theorem unique_by_content_last_wins (all_tweets : list Live.OceanHazardTweet) :
  let unique_tweets := Live.unique_by_content hash all_tweets in
  List.NoDup (map (fun t => hash (Live.content t)) unique_tweets)
  /\ (forall t, In t unique_tweets -> last_with_hash hash all_tweets t)
  /\ (forall t, In t all_tweets ->
        In (hash (Live.content t)) (map (fun t => hash (Live.content t)) unique_tweets))
  /\ (length unique_tweets <= length all_tweets)%nat.
Proof.
  cbv zeta. split; [apply unique_by_content_NoDup|].
  split; [apply unique_by_content_last|]. split; [|apply unique_by_content_length].
  intros t Ht. rewrite unique_by_content_hashes.
  destruct (unique_dict_invariant all_tweets) as (_ & _ & Hcov & _). now apply Hcov.
Qed.

End UniqueByContent.

Section SearchProvenance.

Variable polarity_of : string -> option Q.
Variable scrape_multiple_sources : string -> nat -> option (list Live.RawTweet).

Lemma raw_tweets_loop_provenance (raw_tweets : list Live.RawTweet)
    (all_tweets : list Live.OceanHazardTweet) (cache : gmap string sentiment) :
  let result := fst (Live.raw_tweets_loop polarity_of raw_tweets all_tweets cache) in
  (forall t, In t result ->
     In t all_tweets \/ exists raw, In raw raw_tweets /\ built_from raw t)
  /\ (length result <= length all_tweets + length raw_tweets)%nat.
Proof.
  revert all_tweets cache.
  induction raw_tweets as [|raw rest IH]; intros all_tweets cache; cbv zeta; simpl.
  - split; [auto | lia].
  - destruct (Live.find_matching_keywords (Live.raw_content raw)) as [|kw kws] eqn:Hkw.
    + destruct (IH all_tweets cache) as [Hin Hlen]. split; [|lia].
      intros t Ht. destruct (Hin t Ht) as [H|(r & Hr & Hb)]; [now left|].
      right. exists r. split; [now right | exact Hb].
    + destruct (Live.analyze_sentiment polarity_of (Live.raw_content raw) cache)
        as [[s cache']|]; simpl; [|split; [auto | lia]].
      destruct (IH (all_tweets ++ [Live.live_tweet raw (kw :: kws) s
                                     (Live.categorize_hazard (kw :: kws))]) cache')
        as [Hin Hlen].
      split; [|rewrite length_app in Hlen; simpl in Hlen; lia].
      intros t Ht. destruct (Hin t Ht) as [H|(r & Hr & Hb)].
      * apply in_app_iff in H as [H|[<-|[]]]; [now left|].
        right. exists raw. split; [now left|].
        unfold built_from. rewrite Hkw. split; [discriminate | now exists s].
      * right. exists r. split; [now right | exact Hb].
Qed.

Lemma keywords_loop_provenance (n : nat) (priority_keywords : list string)
    (all_tweets : list Live.OceanHazardTweet) (cache : gmap string sentiment) :
  let result :=
    fst (Live.keywords_loop polarity_of scrape_multiple_sources n priority_keywords
           all_tweets cache) in
  (forall t, In t result ->
     In t all_tweets
     \/ exists keyword raw_tweets raw,
          In keyword priority_keywords
          /\ scrape_multiple_sources keyword n = Some raw_tweets
          /\ In raw raw_tweets /\ built_from raw t)
  /\ (length result <= length all_tweets + scraped_count scrape_multiple_sources n priority_keywords)%nat.
Proof.
  revert all_tweets cache.
  induction priority_keywords as [|keyword rest IH]; intros all_tweets cache; cbv zeta; simpl.
  - split; [auto | lia].
  - destruct (scrape_multiple_sources keyword n) as [raw_tweets|] eqn:Hscrape.
    + destruct (raw_tweets_loop_provenance raw_tweets all_tweets cache) as [Hin1 Hlen1].
      destruct (Live.raw_tweets_loop polarity_of raw_tweets all_tweets cache)
        as [all' cache'].
      simpl in Hin1, Hlen1. destruct (IH all' cache') as [Hin Hlen]. split; [|lia].
      intros t Ht. destruct (Hin t Ht) as [H|(k & rs & r & Hk & Hs & Hr & Hb)].
      * destruct (Hin1 t H) as [H1|(r & Hr & Hb)]; [now left|].
        right. exists keyword, raw_tweets, r. split; [now left | now split].
      * right. exists k, rs, r. split; [now right | now split].
    + destruct (IH all_tweets cache) as [Hin Hlen]. split; [|lia].
      intros t Ht. destruct (Hin t Ht) as [H|(k & rs & r & Hk & Hs & Hr & Hb)]; [now left|].
      right. exists k, rs, r. split; [now right | now split].
Qed.

End SearchProvenance.

Section SearchContract.

Variable polarity_of : string -> option Q.
Variable hash : string -> Z.

Lemma priority_keywords_eq :
  firstn 8 KEYWORDS
  = ["ocean hazard"; "tsunami"; "storm surge"; "hurricane"; "cyclone";
     "typhoon"; "flood"; "coastal erosion"].
Proof. reflexivity. Qed.

Lemma search_ocean_hazards_length
    (scrape_multiple_sources : string -> nat -> option (list Live.RawTweet))
    (max_tweets_per_keyword : nat) (cache : gmap string sentiment) :
  (length (fst (Live.search_ocean_hazards polarity_of scrape_multiple_sources hash
                  max_tweets_per_keyword cache))
   <= scraped_count scrape_multiple_sources max_tweets_per_keyword (firstn 8 KEYWORDS))%nat.
Proof.
  unfold Live.search_ocean_hazards.
  destruct (keywords_loop_provenance polarity_of scrape_multiple_sources
              max_tweets_per_keyword (firstn 8 KEYWORDS) [] cache) as [_ Hlen].
  destruct (Live.keywords_loop polarity_of scrape_multiple_sources max_tweets_per_keyword
              (firstn 8 KEYWORDS) [] cache) as [all_tweets cache'].
  cbn [fst] in Hlen. cbn [fst].
  pose proof (unique_by_content_length hash all_tweets) as Hle.
  cbn [length] in Hlen. lia.
Qed.


End SearchContract.

Section SearchWithScraper.

Variable polarity_of : string -> option Q.
Variable nitter_page : string -> string -> option (list (option Live.RawTweet)).
Variable setup_driver : string -> bool.
Variable open_search : string -> bool.
Variable find_elements : string -> nat -> option (list (option Live.RawTweet)).
Variable scroll : string -> nat -> bool.
Variable hash : string -> Z.

(** X6.  With the scraper of the file, [search_ocean_hazards] returns at most
    eight times [max_tweets_per_keyword] tweets. *)
Theorem search_ocean_hazards_bounded (max_tweets_per_keyword : nat)
    (cache : gmap string sentiment) :
  (length
     (fst (Live.search_ocean_hazards polarity_of
             (fun query max_tweets =>
                Some (Scraper.scrape_multiple_sources nitter_page setup_driver open_search
                        find_elements scroll hash query max_tweets))
             hash max_tweets_per_keyword cache))
   <= 8 * max_tweets_per_keyword)%nat.
Proof.
  etransitivity; [apply search_ocean_hazards_length|].
  rewrite priority_keywords_eq. cbn [scraped_count].
  pose proof (scrape_multiple_sources_length nitter_page setup_driver open_search
                find_elements scroll hash) as H.
  pose proof (H "ocean hazard" max_tweets_per_keyword).
  pose proof (H "tsunami" max_tweets_per_keyword).
  pose proof (H "storm surge" max_tweets_per_keyword).
  pose proof (H "hurricane" max_tweets_per_keyword).
  pose proof (H "cyclone" max_tweets_per_keyword).
  pose proof (H "typhoon" max_tweets_per_keyword).
  pose proof (H "flood" max_tweets_per_keyword).
  pose proof (H "coastal erosion" max_tweets_per_keyword). lia.
Qed.

End SearchWithScraper.

(** ** The keyword matcher and the categoriser together *)

Section MatcherFacts.

Lemma lower_append (s1 s2 : string) : lower (s1 +:+ s2) = lower s1 +:+ lower s2.
Proof.
  induction s1 as [|c s1 IH]; [reflexivity|].
  change (String (lower_ascii c) (lower (s1 +:+ s2))
          = String (lower_ascii c) (lower s1 +:+ lower s2)).
  now rewrite IH.
Qed.

Lemma string_append_assoc (s1 s2 s3 : string) : (s1 +:+ s2) +:+ s3 = s1 +:+ (s2 +:+ s3).
Proof.
  induction s1 as [|c s1 IH]; [reflexivity|].
  change (String c ((s1 +:+ s2) +:+ s3) = String c (s1 +:+ (s2 +:+ s3))).
  now rewrite IH.
Qed.

Lemma occurs_in_extend (sub s pre post : string) :
  occurs_in sub s -> occurs_in sub (pre +:+ s +:+ post).
Proof.
  intros (p & q & ->). exists (pre +:+ p), (q +:+ post).
  now rewrite !string_append_assoc.
Qed.

Lemma filter_sublist_impl (p q : string -> bool) (l : list string) :
  (forall x, In x l -> p x = true -> q x = true) ->
  sublist (List.filter p l) (List.filter q l).
Proof.
  induction l as [|x l IH]; intros Himp; simpl; [constructor|].
  assert (IH' : sublist (List.filter p l) (List.filter q l))
    by (apply IH; intros y Hy; apply Himp; now right).
  destruct (p x) eqn:Hp.
  - rewrite (Himp x (or_introl eq_refl) Hp). now constructor.
  - destruct (q x); [now constructor | exact IH'].
Qed.

(** X7.  Text added before or after a text never removes a match: the keywords
    matched in [text] are matched in [pre ++ text ++ post], in the same
    order. *)
Theorem find_matching_keywords_extend (pre text post : string) :
  sublist (Demo.find_matching_keywords text)
    (Demo.find_matching_keywords (pre +:+ text +:+ post))
  /\ sublist (Live.find_matching_keywords text)
       (Live.find_matching_keywords (pre +:+ text +:+ post)).
Proof.
  assert (H : sublist (Live.find_matching_keywords text)
                (Live.find_matching_keywords (pre +:+ text +:+ post))).
  { unfold Live.find_matching_keywords. apply filter_sublist_impl.
    intros kw _. rewrite !str_in_occurs, !lower_append. apply occurs_in_extend. }
  split; [|exact H].
  now rewrite !demo_matcher_filter.
Qed.

End MatcherFacts.

Section CategorizerFacts.

Lemma demo_scan_result (keyword_lower order : list string) :
  Forall (fun c => is_Some (dict_get hazard_categories c)) order ->
  Demo.scan_categories keyword_lower order = Some None
  \/ exists category,
       In category order
       /\ Demo.scan_categories keyword_lower order = Some (Some category).
Proof.
  induction order as [|c order IH]; simpl; intros Hkeys; [now left|].
  inversion Hkeys as [|? ? [cks Hcks] Hrest]; subst. rewrite Hcks.
  destruct (Demo.category_hit keyword_lower cks).
  - right. exists c. split; [now left | reflexivity].
  - destruct (IH Hrest) as [H|(category & Hin & H)]; [now left|].
    right. exists category. split; [now right | exact H].
Qed.

Lemma category_hit_no_keyword (cat_keywords : list string) :
  Demo.category_hit [] cat_keywords = false.
Proof. induction cat_keywords as [|ck cks IH]; simpl; [reflexivity | exact IH]. Qed.

Lemma demo_scan_no_keyword (order : list string) :
  Forall (fun c => is_Some (dict_get hazard_categories c)) order ->
  Demo.scan_categories [] order = Some None.
Proof.
  induction order as [|c order IH]; simpl; intros Hkeys; [reflexivity|].
  inversion Hkeys as [|? ? [cks Hcks] Hrest]; subst.
  rewrite Hcks, category_hit_no_keyword. now apply IH.
Qed.

(** X8.  [categorize_hazard] on the empty sequence and its defaults.  The demo
    program's categoriser never raises; it answers [unknown] for the empty
    keyword sequence and only for it, and a category of the closed set for
    every other sequence.  The live program's categoriser answers [general]
    for the empty sequence and a category of the closed set for every
    sequence, so it never answers [unknown]. *)
Theorem categorize_hazard_defaults (keywords : list string) :
  (exists category,
      Demo.categorize_hazard keywords = Some category
      /\ (category = "unknown" <-> keywords = [])
      /\ (keywords <> [] -> In category closed_categories))
  /\ Live.categorize_hazard [] = "general"
  /\ In (Live.categorize_hazard keywords) closed_categories
  /\ Live.categorize_hazard keywords <> "unknown".
Proof.
  split; [|split; [reflexivity|]].
  - unfold Demo.categorize_hazard.
    destruct keywords as [|kw kws].
    + simpl map. rewrite (demo_scan_no_keyword _ priority_keys).
      exists "unknown". split; [reflexivity|]. split; [tauto | congruence].
    + destruct (demo_scan_result (map lower (kw :: kws)) Demo.category_priority priority_keys)
        as [->|(category & Hin & ->)].
      * exists "general". split; [reflexivity|]. split.
        -- split; discriminate.
        -- intros _. vm_compute. tauto.
      * exists category. split; [reflexivity|].
        assert (Hclosed : In category closed_categories).
        { revert Hin. vm_compute. tauto. }
        split; [|intros _; exact Hclosed].
        split; [|discriminate]. intros ->. exfalso. revert Hclosed.
        vm_compute. intros H.
        repeat (destruct H as [H|H]; [discriminate H|]). exact H.
  - pose proof (live_categorize_closed keywords) as Hclosed.
    split; [exact Hclosed|]. intros Heq. rewrite Heq in Hclosed. revert Hclosed.
    vm_compute. intros H.
    repeat (destruct H as [H|H]; [discriminate H|]). exact H.
Qed.

End CategorizerFacts.

Section MatcherCategorizer.

(** On a keyword of the vocabulary the substring test of the demo program
    and the membership test of the live program agree, for every category. *)
Lemma vocabulary_singleton_hits :
  Forall (fun kw =>
            Forall (fun cat_keywords =>
                      Demo.category_hit [lower kw] cat_keywords = list_in kw cat_keywords)
              (map snd hazard_categories))
    vocabulary.
Proof. apply (bool_decide_unpack _). vm_compute. exact I. Qed.

(** Every keyword of the vocabulary is a keyword of some category. *)
Lemma vocabulary_categorised :
  Forall (fun kw => existsb (fun cat_keywords => list_in kw cat_keywords)
                      (map snd hazard_categories) = true)
    vocabulary.
Proof. apply (bool_decide_unpack _). vm_compute. exact I. Qed.

Lemma category_hit_any (keywords cat_keywords : list string) :
  Demo.category_hit (map lower keywords) cat_keywords
  = existsb (fun kw => Demo.category_hit [lower kw] cat_keywords) keywords.
Proof.
  apply eq_true_iff_eq. unfold Demo.category_hit, any.
  rewrite !existsb_exists. split.
  - intros (ck & Hck & Hany). apply existsb_exists in Hany as (kwl & Hkwl & Hin).
    apply in_map_iff in Hkwl as (kw & <- & Hkw).
    exists kw. split; [exact Hkw|]. apply existsb_exists. exists ck. split; [exact Hck|].
    simpl. now rewrite Hin.
  - intros (kw & Hkw & Hany). apply existsb_exists in Hany as (ck & Hck & Hin).
    exists ck. split; [exact Hck|]. apply existsb_exists. exists (lower kw).
    split; [now apply in_map|]. simpl in Hin. now rewrite orb_false_r in Hin.
Qed.

Lemma vocabulary_category_hit (keywords cat_keywords : list string) :
  (forall kw, In kw keywords -> In kw vocabulary) ->
  In cat_keywords (map snd hazard_categories) ->
  Demo.category_hit (map lower keywords) cat_keywords
  = any (fun kw => list_in kw cat_keywords) keywords.
Proof.
  intros Hvocab Hcat. rewrite category_hit_any. unfold any.
  induction keywords as [|kw kws IH]; [reflexivity|]. simpl.
  rewrite IH by (intros k Hk; apply Hvocab; now right). f_equal.
  pose proof vocabulary_singleton_hits as H. rewrite List.Forall_forall in H.
  specialize (H kw (Hvocab kw (or_introl eq_refl))). rewrite List.Forall_forall in H.
  now apply H.
Qed.

Lemma vocabulary_some_hit (keywords : list string) :
  (forall kw, In kw keywords -> In kw vocabulary) ->
  keywords <> [] ->
  existsb (fun cat_keywords => any (fun kw => list_in kw cat_keywords) keywords)
    (map snd hazard_categories) = true.
Proof.
  intros Hvocab Hne. destruct keywords as [|kw kws]; [congruence|].
  pose proof vocabulary_categorised as H. rewrite List.Forall_forall in H.
  specialize (H kw (Hvocab kw (or_introl eq_refl))).
  apply existsb_exists in H as (cks & Hcks & Hin).
  apply existsb_exists. exists cks. split; [exact Hcks|]. simpl. now rewrite Hin.
Qed.

(** X9.  Matcher and categoriser together.  When a text matches at least one
    keyword, both programs' categorisers answer with a category one of whose
    keywords was matched, never with the default; the two answers are the
    same, except that the demo program answers [pollution] and the live
    program [erosion] when keywords of both categories are matched and none
    of tsunami, storms and flooding. *)
Theorem matched_text_category (text : string) :
  let keywords := Demo.find_matching_keywords text in
  keywords <> [] ->
  Live.find_matching_keywords text = keywords
  /\ exists category,
       Demo.categorize_hazard keywords = Some category
       /\ member_hit keywords category
       /\ member_hit keywords (Live.categorize_hazard keywords)
       /\ (Live.categorize_hazard keywords = category
           \/ (category = "pollution" /\ Live.categorize_hazard keywords = "erosion")).
Proof.
  cbv zeta. intros Hne. split; [now rewrite demo_matcher_filter|].
  assert (Hvocab : forall kw, In kw (Demo.find_matching_keywords text) -> In kw vocabulary).
  { intros kw. rewrite demo_matcher_filter, filter_In. tauto. }
  pose proof (vocabulary_some_hit _ Hvocab Hne) as Hsome.
  pose proof (fun cks => vocabulary_category_hit (Demo.find_matching_keywords text) cks Hvocab)
    as Hhit.
  revert Hne Hsome Hhit. generalize (Demo.find_matching_keywords text) as kws.
  intros kws Hne Hsome Hhit.
  unfold Demo.categorize_hazard, Demo.category_priority, Live.categorize_hazard.
  cbn [Demo.scan_categories Live.scan_items dict_get hazard_categories
       String.eqb Ascii.eqb Bool.eqb andb].
  rewrite !Hhit by (simpl; tauto).
  cbn [existsb map snd hazard_categories] in Hsome.
  repeat match goal with
         | |- context [if any ?f kws then _ else _] =>
             let E := fresh "E" in destruct (any f kws) eqn:E
         end;
    try (rewrite ?E, ?E0, ?E1, ?E2, ?E3, ?E4, ?E5, ?E6 in Hsome; discriminate Hsome);
    eexists; (split; [reflexivity|]);
    (split; [apply member_hit_decide;
             cbn [dict_get hazard_categories String.eqb Ascii.eqb Bool.eqb andb];
             assumption|]);
    (split; [apply member_hit_decide;
             cbn [dict_get hazard_categories String.eqb Ascii.eqb Bool.eqb andb];
             assumption|]);
    first [left; reflexivity | right; split; reflexivity].
Qed.

Lemma matched_text_category_witness :
  exists category,
    Demo.categorize_hazard (Demo.find_matching_keywords "Oil spill and sea level rise")
    = Some category
    /\ (Live.categorize_hazard (Demo.find_matching_keywords "Oil spill and sea level rise")
        = category
        \/ (category = "pollution"
            /\ Live.categorize_hazard
                 (Demo.find_matching_keywords "Oil spill and sea level rise") = "erosion")).
Proof.
  destruct (matched_text_category "Oil spill and sea level rise") as [_ (c & Hc & _ & _ & H)];
    [vm_compute; discriminate|].
  exists c. split; [exact Hc | exact H].
Defined.

End MatcherCategorizer.

(** ** The sentiment cache and the score *)

Section CacheGrowth.

Variable polarity_of : string -> option Q.






End CacheGrowth.

Section ScoreMonotone.

Local Open Scope Q_scope.

Lemma clamp_monotone (x y : Q) :
  x <= y -> Qmax (- (1)) (Qmin 1 x) <= Qmax (- (1)) (Qmin 1 y).
Proof.
  intros Hxy. apply Q.max_le_compat_l. now apply Q.min_le_compat_l.
Qed.

(** X11.  The score grows with the estimator's polarity: for one text, a larger
    polarity of the estimator never gives a smaller score, so it never turns
    a positive label into another one nor another label into negative. *)
Theorem score_monotone_in_polarity (text : string) (polarity1 polarity2 : Q) :
  polarity1 <= polarity2 ->
  (fst (fst (Demo.score_polarity text polarity1))
   <= fst (fst (Demo.score_polarity text polarity2))
   /\ (snd (fst (Demo.score_polarity text polarity1)) = "positive" ->
       snd (fst (Demo.score_polarity text polarity2)) = "positive")
   /\ (snd (fst (Demo.score_polarity text polarity2)) = "negative" ->
       snd (fst (Demo.score_polarity text polarity1)) = "negative"))
  /\ (fst (fst (Live.score_polarity text polarity1))
      <= fst (fst (Live.score_polarity text polarity2))
      /\ (snd (fst (Live.score_polarity text polarity1)) = "positive" ->
          snd (fst (Live.score_polarity text polarity2)) = "positive")
      /\ (snd (fst (Live.score_polarity text polarity2)) = "negative" ->
          snd (fst (Live.score_polarity text polarity1)) = "negative")).
Proof.
  intros Hle. split.
  - pose proof (demo_score_coherent text polarity1) as H1.
    pose proof (demo_score_coherent text polarity2) as H2.
    assert (Hs : fst (fst (Demo.score_polarity text polarity1))
                 <= fst (fst (Demo.score_polarity text polarity2))).
    { unfold Demo.score_polarity. cbn [fst]. apply clamp_monotone. lra. }
    destruct (Demo.score_polarity text polarity1) as [[s1 l1] c1].
    destruct (Demo.score_polarity text polarity2) as [[s2 l2] c2].
    unfold label_coherent in H1, H2. cbn [fst snd] in *.
    destruct H1 as (P1 & N1 & _). destruct H2 as (P2 & N2 & _).
    split; [exact Hs|]. split.
    + intros Hp. apply P2. apply P1 in Hp. lra.
    + intros Hn. apply N1. apply N2 in Hn. lra.
  - pose proof (live_score_coherent text polarity1) as H1.
    pose proof (live_score_coherent text polarity2) as H2.
    assert (Hs : fst (fst (Live.score_polarity text polarity1))
                 <= fst (fst (Live.score_polarity text polarity2))).
    { unfold Live.score_polarity. cbn [fst]. apply clamp_monotone. lra. }
    destruct (Live.score_polarity text polarity1) as [[s1 l1] c1].
    destruct (Live.score_polarity text polarity2) as [[s2 l2] c2].
    unfold label_coherent in H1, H2. cbn [fst snd] in *.
    destruct H1 as (P1 & N1 & _). destruct H2 as (P2 & N2 & _).
    split; [exact Hs|]. split.
    + intros Hp. apply P2. apply P1 in Hp. lra.
    + intros Hn. apply N1. apply N2 in Hn. lra.
Qed.

Lemma score_monotone_in_polarity_witness :
  fst (fst (Demo.score_polarity "Storm surge emergency" (- (1 # 2))))
  <= fst (fst (Demo.score_polarity "Storm surge emergency" (1 # 2))).
Proof.
  apply (score_monotone_in_polarity "Storm surge emergency" (- (1 # 2)) (1 # 2)).
  discriminate.
Defined.

End ScoreMonotone.

(** ** The demo pipeline *)

Section DemoPipeline.

Local Open Scope Q_scope.

Variable polarity_of : string -> option Q.
Variable draws : nat -> Demo.DemoDraw.

Lemma demo_tweet_copied_eq (i : nat) (data : DemoEntry) (s : sentiment) :
  demo_tweet_copied (Demo.demo_tweet draws i data s) = demo_entry_copied data
  /\ Demo.source (Demo.demo_tweet draws i data s) = "DEMO_DATA"
  /\ Demo.tweet_id (Demo.demo_tweet draws i data s) = "demo_" +:+ format_03d (i + 1).
Proof. destruct s as [[score label] conf]. repeat split. Qed.

Lemma demo_loop_copies (entries : list DemoEntry) (i : nat)
    (tweets : list Demo.OceanHazardTweet) (cache : gmap string sentiment) :
  let result := fst (Demo.demo_loop polarity_of draws i entries tweets cache) in
  map demo_tweet_copied result
  = map demo_tweet_copied tweets ++ map demo_entry_copied entries
  /\ map Demo.tweet_id result
     = map Demo.tweet_id tweets
       ++ map (fun j => "demo_" +:+ format_03d (j + 1)) (seq i (length entries))
  /\ (Forall (fun t => Demo.source t = "DEMO_DATA") tweets ->
      Forall (fun t => Demo.source t = "DEMO_DATA") result).
Proof.
  revert i tweets cache.
  induction entries as [|data entries IH]; intros i tweets cache; cbv zeta; simpl.
  - rewrite !app_nil_r. now repeat split.
  - destruct (Demo.analyze_sentiment polarity_of (data_content data) cache) as [s cache'].
    destruct (IH (S i) (tweets ++ [Demo.demo_tweet draws i data s]) cache') as (H1 & H2 & H3).
    destruct (demo_tweet_copied_eq i data s) as (E1 & E2 & E3).
    rewrite H1, H2, !map_app. simpl. rewrite E1, E3, <- !app_assoc. simpl.
    split; [reflexivity|]. split; [reflexivity|].
    intros Hsrc. apply H3. apply Forall_app. split; [exact Hsrc|].
    constructor; [exact E2 | constructor].
Qed.

(** X12.  Whatever the estimator and the random draws do, [get_demo_tweets]
    returns one tweet for each entry of its table, in the order of the
    table, with the entry's username, handle, content, keywords and category,
    the source [DEMO_DATA] and the ids [demo_001], [demo_002], ..., which are
    pairwise distinct. *)
Theorem get_demo_tweets_copies_table (cache : gmap string sentiment) :
  let tweets := fst (Demo.get_demo_tweets polarity_of draws cache) in
  map demo_tweet_copied tweets = map demo_entry_copied Demo.demo_data
  /\ Forall (fun t => Demo.source t = "DEMO_DATA") tweets
  /\ map Demo.tweet_id tweets
     = map (fun j => "demo_" +:+ format_03d (j + 1)) (seq 0 (length Demo.demo_data))
  /\ List.NoDup (map Demo.tweet_id tweets).
Proof.
  cbv zeta. unfold Demo.get_demo_tweets.
  destruct (demo_loop_copies Demo.demo_data 0 [] cache) as (H1 & H2 & H3).
  simpl app in H1, H2.
  split; [exact H1|]. split; [apply H3; constructor|]. split; [exact H2|].
  rewrite H2. apply NoDup_ListNoDup, (bool_decide_unpack _). vm_compute. exact I.
Qed.

End DemoPipeline.

Section DemoEngagement.

Local Open Scope Q_scope.

Lemma py_int_nonneg (x : Q) : 0 <= x -> py_int x = Qfloor x.
Proof.
  intros Hx. unfold py_int.
  destruct (Qle_bool 0 x) eqn:E; [reflexivity|].
  apply Qle_bool_iff in Hx. congruence.
Qed.

Lemma py_int_between (x : Q) (lo hi : Z) :
  inject_Z lo <= x -> x <= inject_Z hi -> (0 <= lo)%Z ->
  (lo <= py_int x <= hi)%Z.
Proof.
  intros Hlo Hhi H0.
  assert (Hx : 0 <= x).
  { apply Qle_trans with (inject_Z lo); [|exact Hlo].
    change 0 with (inject_Z 0). now rewrite <- Zle_Qle. }
  rewrite (py_int_nonneg x Hx). split.
  - rewrite <- (Qfloor_Z lo). now apply Qfloor_resp_le.
  - rewrite <- (Qfloor_Z hi). now apply Qfloor_resp_le.
Qed.

Lemma py_int_monotone (x y : Q) : 0 <= x -> x <= y -> (py_int x <= py_int y)%Z.
Proof.
  intros Hx Hxy. rewrite !py_int_nonneg by lra. now apply Qfloor_resp_le.
Qed.

Lemma engagement_multiplier_range (label content : string) :
  1 <= Demo.engagement_multiplier label content <= 3.
Proof.
  unfold Demo.engagement_multiplier.
  destruct (_ && _); [split; discriminate|].
  destruct (String.eqb label "positive"); split; discriminate.
Qed.

Lemma demo_tweet_engagement (draws : nat -> Demo.DemoDraw) (i : nat) (data : DemoEntry)
    (s : sentiment) :
  draw_in_range (draws i) ->
  let t := Demo.demo_tweet draws i data s in
  (15 <= Demo.retweets t <= 720)%Z
  /\ (50 <= Demo.likes t <= 2250)%Z
  /\ (5 <= Demo.replies t <= 360)%Z
  /\ (Demo.retweets t <= Demo.likes t)%Z
  /\ (Demo.replies t <= Demo.likes t)%Z.
Proof.
  intros ((Hb1 & Hb2) & (Hr1 & Hr2) & (Hl1 & Hl2) & (Hp1 & Hp2)).
  destruct s as [[score label] conf]. cbv zeta. cbn [Demo.demo_tweet Demo.retweets Demo.likes Demo.replies].
  pose proof (engagement_multiplier_range label (data_content data)) as [Hm1 Hm2].
  set (m := Demo.engagement_multiplier label (data_content data)) in *.
  set (ur := Demo.uniform_retweets (draws i)) in *.
  set (ul := Demo.uniform_likes (draws i)) in *.
  set (up := Demo.uniform_replies (draws i)) in *.
  assert (HbQ1 : 50 <= inject_Z (Demo.base_engagement (draws i)))
    by (change 50 with (inject_Z 50); now rewrite <- Zle_Qle).
  assert (HbQ2 : inject_Z (Demo.base_engagement (draws i)) <= 300)
    by (change 300 with (inject_Z 300); now rewrite <- Zle_Qle).
  set (b := inject_Z (Demo.base_engagement (draws i))) in *.
  assert (Hbm1 : 50 <= b * m) by nra.
  assert (Hbm2 : b * m <= 900) by nra.
  split; [apply py_int_between; [change (inject_Z 15) with 15; nra
                               | change (inject_Z 720) with 720; nra | lia]|].
  split; [apply py_int_between; [change (inject_Z 50) with 50; nra
                               | change (inject_Z 2250) with 2250; nra | lia]|].
  split; [apply py_int_between; [change (inject_Z 5) with 5; nra
                               | change (inject_Z 360) with 360; nra | lia]|].
  split; apply py_int_monotone; nra.
Qed.

(** X13.  When the random draws are in the ranges asked of [random], every demo
    tweet has between 15 and 720 retweets, between 50 and 2250 likes and
    between 5 and 360 replies, and never more retweets or replies than
    likes. *)
Theorem demo_engagement_ranges (polarity_of : string -> option Q)
    (draws : nat -> Demo.DemoDraw) (cache : gmap string sentiment) :
  (forall i, draw_in_range (draws i)) ->
  Forall (fun t => (15 <= Demo.retweets t <= 720)%Z
                   /\ (50 <= Demo.likes t <= 2250)%Z
                   /\ (5 <= Demo.replies t <= 360)%Z
                   /\ (Demo.retweets t <= Demo.likes t)%Z
                   /\ (Demo.replies t <= Demo.likes t)%Z)
    (fst (Demo.get_demo_tweets polarity_of draws cache)).
Proof.
  intros Hdraws. unfold Demo.get_demo_tweets. apply demo_loop_tweets; [|constructor].
  intros i data s _. now apply demo_tweet_engagement.
Qed.

Lemma demo_engagement_ranges_witness :
  Forall (fun t => (15 <= Demo.retweets t <= 720)%Z
                   /\ (50 <= Demo.likes t <= 2250)%Z
                   /\ (5 <= Demo.replies t <= 360)%Z
                   /\ (Demo.retweets t <= Demo.likes t)%Z
                   /\ (Demo.replies t <= Demo.likes t)%Z)
    (fst (Demo.get_demo_tweets (fun _ => Some 0)
            (fun _ => Demo.Build_DemoDraw 100 (1 # 2) (3 # 2) (1 # 5) "2025-01-01 00:00") ∅)).
Proof.
  apply (demo_engagement_ranges (fun _ => Some 0)
           (fun _ => Demo.Build_DemoDraw 100 (1 # 2) (3 # 2) (1 # 5) "2025-01-01 00:00") ∅).
  intros i. unfold draw_in_range. simpl. repeat split; try lia; discriminate.
Defined.

End DemoEngagement.

(** ** The fallback demo pipeline *)

Section FallbackPipeline.

Local Open Scope Q_scope.

Variable polarity_of : string -> option Q.
Variable draws : nat -> Live.FallbackDraw.

Lemma fallback_contents_distinct :
  List.NoDup (map (fun data => strip (lower (data_content data))) Live.demo_data).
Proof. apply NoDup_ListNoDup, (bool_decide_unpack _). vm_compute. exact I. Qed.

Lemma fallback_loop_succeeds (entries : list DemoEntry) (i : nat)
    (tweets : list Live.OceanHazardTweet) (cache : gmap string sentiment) :
  List.NoDup (map (fun data => strip (lower (data_content data))) entries) ->
  (forall data, In data entries -> cache !! strip (lower (data_content data)) = None) ->
  (is_Some (Live.fallback_loop polarity_of draws i entries tweets cache)
   <-> forall data, In data entries -> is_Some (polarity_of (data_content data)))
  /\ (forall tweets' cache',
        Live.fallback_loop polarity_of draws i entries tweets cache = Some (tweets', cache') ->
        map Live.content tweets' = map Live.content tweets ++ map data_content entries).
Proof.
  revert i tweets cache.
  induction entries as [|data entries IH]; intros i tweets cache Hnd Hmiss; simpl.
  - split.
    + split; [intros _ d [] | intros _; eexists; reflexivity].
    + intros tweets' cache' [= <- <-]. now rewrite app_nil_r.
  - inversion Hnd as [|? ? Hfresh Hnd']; subst.
    unfold Live.analyze_sentiment. rewrite (Hmiss data (or_introl eq_refl)).
    destruct (polarity_of (data_content data)) as [polarity|] eqn:Hpol; simpl.
    + destruct (IH (S i)
                  (tweets ++ [Live.fallback_tweet draws i data
                                (Live.score_polarity (data_content data) polarity)])
                  (<[strip (lower (data_content data)) :=
                       Live.score_polarity (data_content data) polarity]> cache) Hnd')
        as [Hiff Hmap].
      { intros d Hd. rewrite lookup_insert_ne; [apply Hmiss; now right|].
        intros Heq. apply Hfresh. apply in_map_iff. now exists d. }
      split.
      * rewrite Hiff. split.
        -- intros H d [<-|Hd]; [rewrite Hpol; eexists; reflexivity | now apply H].
        -- intros H d Hd. apply H. now right.
      * intros tweets' cache' E. rewrite (Hmap _ _ E), map_app, <- app_assoc. simpl.
        destruct (Live.score_polarity (data_content data) polarity) as [[sc lb] cf].
        reflexivity.
    + split; [|discriminate]. split.
      * intros [x Hx]. discriminate Hx.
      * intros H. destruct (H data (or_introl eq_refl)) as [p Hp]. congruence.
Qed.

(** X14.  When none of the five fallback contents is in the cache,
    [get_fallback_tech_demo_tweets] returns, rather than raising, exactly
    when the estimator succeeds on each of the five contents; what it returns
    then is one tweet for each content, in the order of the table. *)
Theorem fallback_tweets_succeed_iff (cache : gmap string sentiment) :
  (forall data, In data Live.demo_data ->
                cache !! strip (lower (data_content data)) = None) ->
  (is_Some (Live.get_fallback_tech_demo_tweets polarity_of draws cache)
   <-> forall data, In data Live.demo_data -> is_Some (polarity_of (data_content data)))
  /\ (forall tweets cache',
        Live.get_fallback_tech_demo_tweets polarity_of draws cache = Some (tweets, cache') ->
        map Live.content tweets = map data_content Live.demo_data).
Proof.
  intros Hmiss. unfold Live.get_fallback_tech_demo_tweets.
  apply (fallback_loop_succeeds Live.demo_data 0 [] cache fallback_contents_distinct Hmiss).
Qed.

End FallbackPipeline.

Lemma fallback_tweets_succeed_iff_witness :
  is_Some (Live.get_fallback_tech_demo_tweets (fun _ => Some 0%Q)
             (fun _ => Live.Build_FallbackDraw "2025-01-01 00:00" 10%Z 50%Z 5%Z false) ∅).
Proof.
  apply (fallback_tweets_succeed_iff (fun _ => Some 0%Q)
           (fun _ => Live.Build_FallbackDraw "2025-01-01 00:00" 10%Z 50%Z 5%Z false) ∅).
  - intros data _. apply lookup_empty.
  - intros data _. now exists 0%Q.
Defined.

(** ** The report's counts and notable tweets *)

Section CounterSums.





End CounterSums.

Section ReportCounts.

Local Open Scope Q_scope.






End ReportCounts.

Section NotableTweets.

Local Open Scope Q_scope.

Context {A : Type}.
Variable key : A -> Q.





End NotableTweets.

Section NotableContract.

Local Open Scope Q_scope.


End NotableContract.

(** ** The top keywords *)

Section TopKeywords.

Lemma incr_keys (k : string) (c : list (string * nat)) :
  map fst (incr k c)
  = if in_dec string_dec k (map fst c) then map fst c else map fst c ++ [k].
Proof.
  induction c as [|[k' n] c IH]; simpl; [reflexivity|].
  destruct (String.eqb_spec k' k) as [->|Hne]; simpl.
  - destruct (string_dec k k); [reflexivity | congruence].
  - rewrite IH. destruct (string_dec k' k); [congruence|].
    now destruct (in_dec string_dec k (map fst c)).
Qed.

Lemma incr_NoDup (k : string) (c : list (string * nat)) :
  List.NoDup (map fst c) -> List.NoDup (map fst (incr k c)).
Proof.
  intros Hnd. rewrite incr_keys.
  destruct (in_dec string_dec k (map fst c)) as [E|E]; [exact Hnd|].
  apply Permutation.Permutation_NoDup with (l := k :: map fst c).
  - apply Permutation.Permutation_cons_append.
  - now constructor.
Qed.

Lemma Counter_NoDup (xs : list string) : List.NoDup (map fst (Counter xs)).
Proof.
  unfold Counter.
  assert (H : forall c, List.NoDup (map fst c) ->
                        List.NoDup (map fst (fold_left (fun c x => incr x c) xs c))).
  { induction xs as [|x xs IH]; intros c Hc; simpl; [exact Hc|].
    apply IH. now apply incr_NoDup. }
  apply H. constructor.
Qed.

Lemma dict_get_Some_In {V : Type} (d : list (string * V)) (k : string) (v : V) :
  dict_get d k = Some v -> In (k, v) d.
Proof.
  induction d as [|[k' v'] d IH]; simpl; [discriminate|].
  destruct (String.eqb_spec k' k) as [->|Hne].
  - intros [= ->]. now left.
  - intros H. right. now apply IH.
Qed.

(** The entries of a counter are the elements that occur, each with the
    number of its occurrences. *)
Lemma Counter_entries (xs : list string) (k : string) (n : nat) :
  In (k, n) (Counter xs) <-> (n = count_occ string_dec xs k /\ 0 < n)%nat.
Proof.
  pose proof (Counter_distribution xs k) as Hget.
  split.
  - intros Hin. apply (dict_get_In _ _ _ (Counter_NoDup xs)) in Hin.
    rewrite Hin in Hget. destruct (count_occ string_dec xs k); [discriminate|].
    inversion Hget. lia.
  - intros [-> Hpos]. apply dict_get_Some_In. rewrite Hget.
    destruct (count_occ string_dec xs k); [lia | reflexivity].
Qed.







End TopKeywords.

Section TopKeywordsTies.











End TopKeywordsTies.

(** ** The report's average score *)

Section AverageScore.

Local Open Scope Q_scope.









End AverageScore.

(** ** The [main] functions *)

Section DemoMainFacts.

Local Open Scope Q_scope.

Lemma percentages_total (distribution : list (string * nat)) (total_tweets : nat) :
  Forall (fun e => (0 < snd e <= total_tweets)%nat) distribution ->
  exists percentages,
    DemoMain.percentages distribution total_tweets = Some percentages
    /\ map fst percentages = map fst distribution
    /\ Forall (fun p => percentage (snd p)) percentages.
Proof.
  induction 1 as [|[sentiment count] rest [Hpos Hle] Hrest (others & Hothers & Hkeys & Hall)];
    cbn [DemoMain.percentages snd] in *.
  - exists []. now repeat split.
  - rewrite py_div_Some by lia. cbn [mbind option_bind]. rewrite Hothers.
    cbn [mbind option_bind].
    eexists. split; [reflexivity|]. simpl. split; [now rewrite Hkeys|].
    constructor; [|exact Hall]. simpl. unfold percentage.
    assert (Hc : 0 < inject_Z (Z.of_nat count))
      by (change 0 with (inject_Z 0); rewrite <- Zlt_Qlt; lia).
    assert (Ht : inject_Z (Z.of_nat count) <= inject_Z (Z.of_nat total_tweets))
      by (rewrite <- Zle_Qle; lia).
    revert Hc Ht. generalize (inject_Z (Z.of_nat count)) (inject_Z (Z.of_nat total_tweets)).
    intros c t Hc Ht.
    assert (Hr : 0 < c / t /\ c / t <= 1).
    { split.
      - apply Qlt_shift_div_l; lra.
      - apply Qle_shift_div_r; lra. }
    lra.
Qed.

Lemma Counter_counts_bounded (xs : list string) :
  Forall (fun e => (0 < snd e <= length xs)%nat) (Counter xs).
Proof.
  apply List.Forall_forall. intros [k n] Hin. apply Counter_entries in Hin as [-> Hpos].
  simpl. split; [exact Hpos | apply count_occ_bound].
Qed.

(** X19.  [main] of the demo program always reports: whatever the estimator and
    the random draws do, it analyses the 25 tweets of [get_demo_tweets], its
    "No tweets found." branch is never taken, the report is a full one, so
    [report['summary']] is there, and no percentage divides by zero; each
    percentage printed for a label lies in (0, 100]. *)
Theorem demo_main_reports (polarity_of : string -> option Q) (draws : nat -> Demo.DemoDraw) :
  exists tweets report percentages,
    DemoMain.main polarity_of draws = Some (DemoMain.Reported tweets report percentages)
    /\ tweets = fst (Demo.get_demo_tweets polarity_of draws ∅)
    /\ length tweets = 25%nat
    /\ Demo.total_tweets report = 25%nat
    /\ map fst percentages = map fst (Demo.sentiment_distribution report)
    /\ Forall (fun p => percentage (snd p)) percentages.
Proof.
  unfold DemoMain.main, Demo.search_ocean_hazards.
  pose proof (demo_loop_length polarity_of draws Demo.demo_data 0 [] ∅) as Hlen.
  fold (Demo.get_demo_tweets polarity_of draws ∅) in Hlen.
  destruct (Demo.get_demo_tweets polarity_of draws ∅) as [tweets cache].
  cbn [fst] in *. change (length [] + length Demo.demo_data)%nat with 25%nat in Hlen.
  destruct tweets as [|t ts]; [discriminate Hlen|].
  destruct (demo_report_full t ts) as (report & Hgen & Htotal & Hdist & _).
  rewrite Hgen. cbn [mbind option_bind].
  destruct (percentages_total (Demo.sentiment_distribution report) (Demo.total_tweets report))
    as (percentages & Hp & Hkeys & Hall).
  { rewrite Hdist, Htotal, <- (length_map Demo.sentiment_label).
    apply Counter_counts_bounded. }
  rewrite Hp. cbn [mbind option_bind].
  exists (t :: ts), report, percentages.
  split; [reflexivity|]. split; [reflexivity|]. split; [exact Hlen|].
  split; [congruence|]. now split.
Qed.

End DemoMainFacts.

Section LiveMainFacts.

Variable polarity_of : string -> option Q.
Variable draws : nat -> Live.FallbackDraw.


End LiveMainFacts.

